(** * Portfolio listing pipeline (utils/portfolioPipeline.js)

    [createPortfolioPipeline] builds a MongoDB aggregation pipeline, a list of
    stage objects, and [createPaginationMetadata] derives the page metadata of
    a listing.  The stage list is embedded as a value of the inductive type
    [stage]; an interpreter for exactly the stage operators and expressions
    that the pipeline uses gives it its meaning over a store of documents. *)

From Stdlib Require Import List String ZArith NArith Bool Lia.
From Stdlib Require Import Permutation Sorted SpecFloat.
Import ListNotations.
Open Scope string_scope.
Open Scope list_scope.
Open Scope Z_scope.

Set Implicit Arguments.
Set Warnings "-register-all".

(** ** Documents *)

(** BSON values, as far as the collections of this application hold them. *)
Inductive value : Type :=
| VNull
| VBool (b : bool)
| VNum (n : Z)
| VStr (s : string)
| VDate (t : Z)
| VOid (o : N)
| VArr (vs : list value)
| VDoc (fs : list (string * value)).

(** A document is an ordered list of fields; the first binding of a name is
    the one that counts. *)
Definition document := list (string * value).

Fixpoint get (k : string) (d : document) : option value :=
  match d with
  | [] => None
  | (k', v) :: d' => if String.eqb k k' then Some v else get k d'
  end.

(** Assignment keeps the position of a field that exists and appends a new
    one. *)
Fixpoint set_field (k : string) (v : value) (d : document) : document :=
  match d with
  | [] => [(k, v)]
  | (k', v') :: d' =>
      if String.eqb k k' then (k, v) :: d' else (k', v') :: set_field k v d'
  end.

Fixpoint unset (k : string) (d : document) : document :=
  match d with
  | [] => []
  | (k', v') :: d' =>
      if String.eqb k k' then unset k d' else (k', v') :: unset k d'
  end.

Fixpoint value_eqb (a b : value) {struct a} : bool :=
  match a, b with
  | VNull, VNull => true
  | VBool x, VBool y => Bool.eqb x y
  | VNum x, VNum y => Z.eqb x y
  | VStr x, VStr y => String.eqb x y
  | VDate x, VDate y => Z.eqb x y
  | VOid x, VOid y => N.eqb x y
  | VArr xs, VArr ys =>
      (fix all2 (xs ys : list value) {struct xs} : bool :=
         match xs, ys with
         | [], [] => true
         | x :: xs', y :: ys' => value_eqb x y && all2 xs' ys'
         | _, _ => false
         end) xs ys
  | VDoc xs, VDoc ys =>
      (fix all2 (xs ys : list (string * value)) {struct xs} : bool :=
         match xs, ys with
         | [], [] => true
         | (k, x) :: xs', (k', y) :: ys' =>
             String.eqb k k' && value_eqb x y && all2 xs' ys'
         | _, _ => false
         end) xs ys
  | _, _ => false
  end.

(** A value that may be missing: [None] is an absent field. *)
Definition field := option value.

Definition field_eqb (a b : field) : bool :=
  match a, b with
  | None, None => true
  | Some x, Some y => value_eqb x y
  | _, _ => false
  end.

Definition or_null (f : field) : value :=
  match f with Some v => v | None => VNull end.

(** ** Aggregation expressions *)

(** ["$a.b"] is [EField ["a"; "b"]], ["$$v"] is [EVar "v"], [{ $size: e }] is
    [ESize e], [{ $eq: [a, b] }] is [EEq a b] and an object literal whose
    fields are expressions is [EObj]. *)
Inductive expr : Type :=
| EField (path : list string)
| EVar (name : string)
| ESize (e : expr)
| EEq (a b : expr)
| EObj (fs : list (string * expr)).

Inductive accumulator : Type :=
| First (e : expr)
| Push (e : expr).

(** A field of a [$project]: [1], [0] or an expression. *)
Inductive projection : Type :=
| Included
| Excluded
| Computed (e : expr).

(** ** Stages *)

(** The stage operators of the pipeline.  [$match] carries a query document,
    which is opaque to this module, or an [$expr]; [$lookup] has its
    equality form and its [let]/[pipeline] form. *)
Inductive stage : Type :=
| Match (query : value)
| MatchExpr (e : expr)
| Lookup (from localField foreignField as_ : string)
| LookupPipeline (from : string) (lets : list (string * expr))
                 (pipeline : list stage) (as_ : string)
| AddFields (fs : list (string * expr))
| Unwind (path : string) (preserveNullAndEmptyArrays : bool)
| Group (_id : expr) (accs : list (string * accumulator))
| Project (spec : list (string * projection))
| Sort (keys : list (string * Z))
| Skip (n : Z)
| Limit (n : Z).

(** ** createPortfolioPipeline *)

(** The options object; [None] is a property that is not given. *)
Record options : Type := mkOptions {
  sort : option string;
  skip : option Z;
  limit : option Z
}.

Definition noOptions : options := mkOptions None None None.

Definition default {A : Type} (d : A) (o : option A) : A :=
  match o with Some a => a | None => d end.

(** The ten stages that every pipeline starts with. *)
Definition baseStages (matchStage : value) : list stage :=
  [ Match matchStage;
    Lookup "likes" "_id" "portfolioID" "likes";
    AddFields [("likeCount", ESize (EField ["likes"]))];
    Unwind "techStack" true;
    LookupPipeline "techstacks" [("techSkill", EField ["techStack"])]
      [MatchExpr (EEq (EField ["skill"]) (EVar "techSkill"))]
      "techStackInfo";
    Unwind "techStackInfo" true;
    Group (EField ["_id"])
      [ ("title", First (EField ["title"]));
        ("contents", First (EField ["contents"]));
        ("view", First (EField ["view"]));
        ("images", First (EField ["images"]));
        ("tags", First (EField ["tags"]));
        ("techStack",
          Push (EObj [ ("skill", EField ["techStackInfo"; "skill"]);
                       ("bgColor", EField ["techStackInfo"; "bgColor"]);
                       ("textColor", EField ["techStackInfo"; "textColor"]);
                       ("jobCode", EField ["techStackInfo"; "jobCode"]) ]));
        ("createdAt", First (EField ["createdAt"]));
        ("thumbnailImage", First (EField ["thumbnailImage"]));
        ("userID", First (EField ["userID"]));
        ("likeCount", First (EField ["likeCount"]));
        ("jobGroup", First (EField ["jobGroup"])) ];
    LookupPipeline "jobgroups" [("jobGroupId", EField ["jobGroup"])]
      [ MatchExpr (EEq (EField ["_id"]) (EVar "jobGroupId"));
        Project [("_id", Excluded); ("job", Included)] ]
      "jobGroupInfo";
    Unwind "jobGroupInfo" true;
    Project
      [ ("_id", Included);
        ("title", Included);
        ("contents", Included);
        ("view", Included);
        ("images", Included);
        ("tags", Included);
        ("techStack", Included);
        ("createdAt", Included);
        ("thumbnailImage", Included);
        ("userID", Included);
        ("likeCount", Included);
        ("jobGroup", Computed (EField ["jobGroupInfo"; "job"])) ] ].

Definition sortStage (sort : string) : stage :=
  if String.eqb sort "popular"
  then Sort [("likeCount", -1); ("createdAt", -1)]
  else Sort [("createdAt", -1)].

Definition skipStage (skip : Z) : list stage :=
  if 0 <? skip then [Skip skip] else [].

Definition limitStage (limit : Z) : list stage :=
  if 0 <? limit then [Limit limit] else [].

(** [createPortfolioPipeline(matchStage = {}, options = {})]: a parameter
    that is not given is [None]. *)
Definition createPortfolioPipeline
    (matchStage : option value) (opts : option options) : list stage :=
  let matchStage := default (VDoc []) matchStage in
  let opts := default noOptions opts in
  let sort := default "latest" (sort opts) in
  let skip := default 0 (skip opts) in
  let limit := default 15 (limit opts) in
  baseStages matchStage
  ++ [sortStage sort] ++ skipStage skip ++ limitStage limit.

(** ** createPaginationMetadata *)

(** A JavaScript number is an IEEE 754 double: a signed zero, a signed
    infinity, NaN, or [(-1)^s * m * 2^e] with 53 bits of precision. *)
Definition number : Type := spec_float.

(** The number that an integer literal denotes: the integer itself up to
    [2^53], the nearest double beyond. *)
Definition ofZ (z : Z) : number := binary_normalize 53 1024 z 0 false.

(** [x / y]: the quotient rounded to the nearest double, ties to even; a
    division by a zero gives an infinity, or NaN for [0 / 0]. *)
Definition divide (x y : number) : number := SFdiv 53 1024 x y.

(** [Math.ceil(x)]: NaN, the infinities and the zeros are returned as they
    are, and so is a number without fractional bits; a number strictly
    between -1 and 0 gives -0. *)
Definition ceil (x : number) : number :=
  match x with
  | S754_finite s m e =>
      if 0 <=? e then x
      else if s then
             (if Zpos m / 2 ^ (- e) =? 0 then S754_zero true
              else ofZ (- (Zpos m / 2 ^ (- e))))
           else ofZ (- (- Zpos m / 2 ^ (- e)))
  | _ => x
  end.

(** [x < y]: false as soon as one side is NaN; the two zeros are equal. *)
Definition lessThan (x y : number) : bool := SFltb x y.

Module Meta.
Record t : Type := mk {
  currentPage : number;
  totalPages : number;
  totalCount : number;
  hasNextPage : bool;
  hasPrevPage : bool;
  limit : number
}.
End Meta.

Definition createPaginationMetadata (totalCount page limit : number)
  : Meta.t :=
  let totalPages := ceil (divide totalCount limit) in
  {| Meta.currentPage := page;
     Meta.totalPages := totalPages;
     Meta.totalCount := totalCount;
     Meta.hasNextPage := lessThan page totalPages;
     Meta.hasPrevPage := lessThan (ofZ 1) page;
     Meta.limit := limit |}.

(** The integer that a number is, if it is one. *)
Definition toZ (x : number) : option Z :=
  match x with
  | S754_zero _ => Some 0
  | S754_finite s m e =>
      if 0 <=? e then Some (cond_Zopp s (Zpos m * 2 ^ e))
      else if Zpos m mod 2 ^ (- e) =? 0
           then Some (cond_Zopp s (Zpos m / 2 ^ (- e)))
           else None
  | _ => None
  end.

(** The 53-bit mantissa and the exponent of a positive integer below
    [2^53] as a double. *)
Definition mantissa (z : positive) : positive :=
  Z.to_pos (Zpos z * 2 ^ (53 - Zpos (digits2_pos z))).

Definition exponent (z : positive) : Z := Zpos (digits2_pos z) - 53.

(** ** Evaluation of expressions *)

(** The pipeline is run by the aggregation engine of the document store.
    What follows is the meaning that the engine gives to the expressions and
    stages of this pipeline.  Evaluation fails ([None]) where the server
    raises an error; a value that is computed may still be missing
    ([Some None]). *)

Definition bind {A B : Type} (m : option A) (f : A -> option B) : option B :=
  match m with Some a => f a | None => None end.

Notation "x <- m ;; k" := (bind m (fun x => k))
  (at level 61, m at next level, right associativity).

(** ["$a.b"] read from a value: a field of an embedded document, and over an
    array the values found in its elements. *)
Fixpoint get_path (p : list string) (v : value) {struct v} : field :=
  match p with
  | [] => Some v
  | k :: p' =>
      match v with
      | VDoc fs =>
          (fix find (fs : list (string * value)) : field :=
             match fs with
             | [] => None
             | (k', x) :: fs' =>
                 if String.eqb k k' then get_path p' x else find fs'
             end) fs
      | VArr xs =>
          Some (VArr
            ((fix each (xs : list value) : list value :=
                match xs with
                | [] => []
                | x :: xs' =>
                    match get_path p x with
                    | Some y => y :: each xs'
                    | None => each xs'
                    end
                end) xs))
      | _ => None
      end
  end.

(** The variables bound by a [let]. *)
Definition variables := list (string * field).

Fixpoint lookup_var (x : string) (vars : variables) : option field :=
  match vars with
  | [] => None
  | (y, f) :: vars' => if String.eqb x y then Some f else lookup_var x vars'
  end.

Fixpoint eval (vars : variables) (d : document) (e : expr) {struct e}
  : option field :=
  match e with
  | EField p => Some (get_path p (VDoc d))
  | EVar x => lookup_var x vars
  | ESize e' =>
      f <- eval vars d e' ;;
      match f with
      | Some (VArr xs) => Some (Some (VNum (Z.of_nat (List.length xs))))
      | _ => None
      end
  | EEq a b =>
      x <- eval vars d a ;;
      y <- eval vars d b ;;
      Some (Some (VBool (field_eqb x y)))
  | EObj fs =>
      o <- (fix fields (fs : list (string * expr)) : option document :=
              match fs with
              | [] => Some []
              | (k, e') :: fs' =>
                  f <- eval vars d e' ;;
                  rest <- fields fs' ;;
                  Some (match f with
                        | Some v => (k, v) :: rest
                        | None => rest
                        end)
              end) fs ;;
      Some (Some (VDoc o))
  end.

(** The truth value that [$expr] gives to the result of an expression. *)
Definition truthy (f : field) : bool :=
  match f with
  | None => false
  | Some VNull => false
  | Some (VBool b) => b
  | Some (VNum n) => negb (n =? 0)
  | Some _ => true
  end.

(** ** Evaluation of stages *)

Fixpoint mapM {A B : Type} (f : A -> option B) (l : list A)
  : option (list B) :=
  match l with
  | [] => Some []
  | a :: l' => b <- f a ;; bs <- mapM f l' ;; Some (b :: bs)
  end.

Definition flat_mapM {A B : Type} (f : A -> option (list B)) (l : list A)
  : option (list B) :=
  bss <- mapM f l ;; Some (List.concat bss).

Definition filterM {A : Type} (f : A -> option bool) (l : list A)
  : option (list A) :=
  flat_mapM (fun a => b <- f a ;; Some (if b then [a] else [])) l.

(** [$lookup] by equality: a missing field counts as [null], an array on
    the local side matches through any of its elements, and an array on the
    foreign side matches as a whole or through an element. *)
Definition foreign_matches (local foreign : value) : bool :=
  value_eqb foreign local
  || match foreign with
     | VArr ys => existsb (value_eqb local) ys
     | _ => false
     end.

Definition lookup_matches (local foreign : field) : bool :=
  match or_null local with
  | VArr xs => existsb (fun x => foreign_matches x (or_null foreign)) xs
  | x => foreign_matches x (or_null foreign)
  end.

(** [$addFields]: every expression reads the incoming document; a result
    that is missing removes the field. *)
Fixpoint add_fields (vars : variables) (src : document)
    (fs : list (string * expr)) (d : document) : option document :=
  match fs with
  | [] => Some d
  | (k, e) :: fs' =>
      f <- eval vars src e ;;
      add_fields vars src fs'
        (match f with Some v => set_field k v d | None => unset k d end)
  end.

(** [$unwind] of one document. *)
Definition unwind (path : string) (preserve : bool) (d : document)
  : list document :=
  match get path d with
  | None | Some VNull => if preserve then [d] else []
  | Some (VArr []) => if preserve then [unset path d] else []
  | Some (VArr xs) => map (fun x => set_field path x d) xs
  | Some _ => [d]
  end.

(** [$group]: the groups in the order in which their keys first appear, the
    members of a group in the order in which they arrive. *)
Fixpoint add_to_group (k : value) (d : document)
    (gs : list (value * list document)) : list (value * list document) :=
  match gs with
  | [] => [(k, [d])]
  | (k', ds) :: gs' =>
      if value_eqb k k' then (k', ds ++ [d]) :: gs'
      else (k', ds) :: add_to_group k d gs'
  end.

Fixpoint group_by (vars : variables) (key : expr) (ds : list document)
    (gs : list (value * list document))
  : option (list (value * list document)) :=
  match ds with
  | [] => Some gs
  | d :: ds' =>
      k <- eval vars d key ;;
      group_by vars key ds' (add_to_group (or_null k) d gs)
  end.

(** [$first] is [null] when the first member has no such field; [$push]
    leaves out the members whose value is missing. *)
Definition accumulate (vars : variables) (a : accumulator)
    (ds : list document) : option value :=
  match a with
  | First e =>
      match ds with
      | [] => Some VNull
      | d :: _ => f <- eval vars d e ;; Some (or_null f)
      end
  | Push e =>
      fs <- mapM (fun d => eval vars d e) ds ;;
      Some (VArr (List.concat (map (fun f : field =>
                                 match f with Some v => [v] | None => [] end)
                              fs)))
  end.

Definition group_document (vars : variables)
    (accs : list (string * accumulator)) (g : value * list document)
  : option document :=
  fs <- mapM (fun ka : string * accumulator =>
                v <- accumulate vars (snd ka) (snd g) ;; Some (fst ka, v))
             accs ;;
  Some (("_id", fst g) :: fs).

(** [$project].  A specification made of [0]s only removes the fields it
    names.  Otherwise the result keeps, in the order of the document, the
    fields marked [1] and [_id] unless it is marked [0], followed by the
    computed fields that have a value. *)
Fixpoint projection_of (k : string) (spec : list (string * projection))
  : option projection :=
  match spec with
  | [] => None
  | (k', p) :: spec' =>
      if String.eqb k k' then Some p else projection_of k spec'
  end.

Definition is_exclusion (spec : list (string * projection)) : bool :=
  forallb (fun kp : string * projection =>
             match snd kp with Excluded => true | _ => false end) spec.

Definition kept (spec : list (string * projection)) (kv : string * value)
  : bool :=
  match projection_of (fst kv) spec with
  | Some Included => true
  | Some Excluded => false
  | Some (Computed _) => false
  | None => String.eqb (fst kv) "_id"
  end.

Definition not_excluded (spec : list (string * projection))
    (kv : string * value) : bool :=
  match projection_of (fst kv) spec with
  | Some Excluded => false
  | _ => true
  end.

Fixpoint computed (vars : variables) (d : document)
    (spec : list (string * projection)) : option document :=
  match spec with
  | [] => Some []
  | (k, Computed e) :: spec' =>
      f <- eval vars d e ;;
      rest <- computed vars d spec' ;;
      Some (match f with Some v => (k, v) :: rest | None => rest end)
  | _ :: spec' => computed vars d spec'
  end.

Definition project (vars : variables) (spec : list (string * projection))
    (d : document) : option document :=
  if is_exclusion spec then Some (filter (not_excluded spec) d)
  else
    cs <- computed vars d spec ;;
    Some (filter (kept spec) d ++ cs).

(** [$sort].  The order of BSON values of different types is that of their
    types; a missing key counts as [null].  Keys that are arrays or embedded
    documents are outside this model, and so is a direction other than [1]
    and [-1]: sorting then fails.  Documents that compare equal keep their
    order. *)
Definition type_rank (v : value) : Z :=
  match v with
  | VNull => 1
  | VNum _ => 2
  | VStr _ => 3
  | VDoc _ => 4
  | VArr _ => 5
  | VOid _ => 7
  | VBool _ => 8
  | VDate _ => 9
  end.

Definition compare_values (a b : value) : comparison :=
  match a, b with
  | VNum x, VNum y => (x ?= y)%Z
  | VStr x, VStr y => String.compare x y
  | VOid x, VOid y => (x ?= y)%N
  | VBool x, VBool y => Bool.compare x y
  | VDate x, VDate y => (x ?= y)%Z
  | _, _ => (type_rank a ?= type_rank b)%Z
  end.

Definition sort_key (k : string) (d : document) : value := or_null (get k d).

Fixpoint compare_by (keys : list (string * Z)) (a b : document)
  : comparison :=
  match keys with
  | [] => Eq
  | (k, dir) :: keys' =>
      match compare_values (sort_key k a) (sort_key k b) with
      | Eq => compare_by keys' a b
      | c => if dir <? 0 then CompOpp c else c
      end
  end.

Fixpoint insert_sorted (keys : list (string * Z)) (d : document)
    (sorted : list document) : list document :=
  match sorted with
  | [] => [d]
  | x :: xs =>
      match compare_by keys d x with
      | Gt => x :: insert_sorted keys d xs
      | _ => d :: x :: xs
      end
  end.

(** [$sort] as a stable insertion sort.  The store promises no order among
    documents whose keys are equal, so the order that [sort_by] gives them
    is one of the orders that an execution may produce. *)
Definition sort_by (keys : list (string * Z)) (ds : list document)
  : list document :=
  fold_right (insert_sorted keys) [] ds.

Definition scalar (v : value) : bool :=
  match v with
  | VArr _ | VDoc _ => false
  | _ => true
  end.

Definition sortable (keys : list (string * Z)) (ds : list document) : bool :=
  forallb (fun kd : string * Z =>
             ((snd kd =? 1) || (snd kd =? -1))
             && forallb (fun d => scalar (sort_key (fst kd) d)) ds) keys.

Section Store.

(** The query language of [$match] belongs to the store: [satisfies q d]
    tells whether the document [d] passes the query [q].  The checks that
    the store makes before it runs a pipeline (that a query is well formed,
    that a skip or a limit fits a 64-bit integer) are not part of this
    meaning: a result [Some out] says what the stages compute, not that the
    store accepts the request. *)
Variable satisfies : value -> document -> bool.

(** The documents of a collection, by the name of the collection. *)
Variable collection : string -> list document.

Fixpoint run_stage (vars : variables) (s : stage) (input : list document)
    {struct s} : option (list document) :=
  match s with
  | Match q => Some (filter (satisfies q) input)
  | MatchExpr e =>
      filterM (fun d => f <- eval vars d e ;; Some (truthy f)) input
  | Lookup from localField foreignField as_ =>
      Some (map (fun d =>
                   set_field as_
                     (VArr (map VDoc
                        (filter (fun f => lookup_matches (get localField d)
                                                         (get foreignField f))
                                (collection from))))
                     d)
                input)
  | LookupPipeline from lets pl as_ =>
      mapM (fun d =>
              bound <- mapM (fun xe : string * expr =>
                               f <- eval vars d (snd xe) ;;
                               Some (fst xe, f)) lets ;;
              found <- (fix run (pl : list stage) (ds : list document)
                          : option (list document) :=
                          match pl with
                          | [] => Some ds
                          | s' :: pl' =>
                              ds' <- run_stage (bound ++ vars) s' ds ;;
                              run pl' ds'
                          end) pl (collection from) ;;
              Some (set_field as_ (VArr (map VDoc found)) d))
           input
  | AddFields fs => mapM (fun d => add_fields vars d fs d) input
  | Unwind path preserve => Some (flat_map (unwind path preserve) input)
  | Group key accs =>
      gs <- group_by vars key input [] ;;
      mapM (group_document vars accs) gs
  | Project spec => mapM (project vars spec) input
  | Sort keys =>
      if sortable keys input then Some (sort_by keys input) else None
  | Skip n => if n <? 0 then None else Some (skipn (Z.to_nat n) input)
  | Limit n => if n <=? 0 then None else Some (firstn (Z.to_nat n) input)
  end.

Fixpoint run_pipeline (vars : variables) (pl : list stage)
    (ds : list document) : option (list document) :=
  match pl with
  | [] => Some ds
  | s :: pl' => ds' <- run_stage vars s ds ;; run_pipeline vars pl' ds'
  end.

End Store.

(** ** The collections *)

(** Modelled from the spec: the schemas of the four collections that the
    pipeline reads (Portfolio, Like, TechStack, JobGroup) are not among the
    sources.  The records have the fields that the data model lists and the
    pipeline uses; the skill sequence and the job-group reference of a
    portfolio may be absent, and a reference may name no record. *)
Record Portfolio : Type := mkPortfolio {
  portfolio_id : N;
  title : string;
  contents : string;
  view : Z;
  images : list string;
  tags : list string;
  techStack : option (list string);
  createdAt : Z;
  thumbnailImage : string;
  userID : string;
  jobGroup : option N
}.

Record Like : Type := mkLike {
  like_id : N;
  portfolioID : N
}.

Record TechStack : Type := mkTechStack {
  techstack_id : N;
  skill : string;
  bgColor : string;
  textColor : string;
  jobCode : string
}.

Record JobGroup : Type := mkJobGroup {
  jobgroup_id : N;
  job : string
}.

Definition strings (l : list string) : value := VArr (map VStr l).

Definition optional (k : string) (f : field) : document :=
  match f with Some v => [(k, v)] | None => [] end.

Definition portfolio_document (p : Portfolio) : document :=
  [ ("_id", VOid (portfolio_id p));
    ("title", VStr (title p));
    ("contents", VStr (contents p));
    ("view", VNum (view p));
    ("images", strings (images p));
    ("tags", strings (tags p)) ]
  ++ optional "techStack" (option_map strings (techStack p))
  ++ [ ("createdAt", VDate (createdAt p));
       ("thumbnailImage", VStr (thumbnailImage p));
       ("userID", VStr (userID p)) ]
  ++ optional "jobGroup" (option_map VOid (jobGroup p)).

Definition like_document (l : Like) : document :=
  [ ("_id", VOid (like_id l)); ("portfolioID", VOid (portfolioID l)) ].

Definition techstack_document (t : TechStack) : document :=
  [ ("_id", VOid (techstack_id t));
    ("skill", VStr (skill t));
    ("bgColor", VStr (bgColor t));
    ("textColor", VStr (textColor t));
    ("jobCode", VStr (jobCode t)) ].

Definition jobgroup_document (j : JobGroup) : document :=
  [ ("_id", VOid (jobgroup_id j)); ("job", VStr (job j)) ].

Record database : Type := mkDatabase {
  portfolios : list Portfolio;
  likes : list Like;
  techstacks : list TechStack;
  jobgroups : list JobGroup
}.

Definition collection_of (db : database) (name : string) : list document :=
  if String.eqb name "portfolios" then map portfolio_document (portfolios db)
  else if String.eqb name "likes" then map like_document (likes db)
  else if String.eqb name "techstacks"
       then map techstack_document (techstacks db)
  else if String.eqb name "jobgroups" then map jobgroup_document (jobgroups db)
  else [].

(** [Portfolio.aggregate(createPortfolioPipeline(matchStage, options))]. *)
Definition aggregate (satisfies : value -> document -> bool) (db : database)
    (matchStage : option value) (opts : option options)
  : option (list document) :=
  run_pipeline satisfies (collection_of db) []
    (createPortfolioPipeline matchStage opts)
    (collection_of db "portfolios").

(** ** The steps of the listing *)

(** The step of the listing that a stage of the pipeline carries out:
    1 filter, 2 like aggregation, 3 tech-stack expansion, 4 tech-stack
    resolution, 5 resolution expansion, 6 collapse, 7 job-group resolution,
    8 projection, 9 sort, 10 skip, 11 limit; 0 for a stage that belongs to
    none of them. *)
Definition step (s : stage) : nat :=
  match s with
  | Match _ => 1
  | Lookup from _ _ _ => if String.eqb from "likes" then 2 else 0
  | AddFields [(k, ESize _)] => if String.eqb k "likeCount" then 2 else 0
  | Unwind path _ =>
      if String.eqb path "techStack" then 3
      else if String.eqb path "techStackInfo" then 5
      else if String.eqb path "jobGroupInfo" then 7
      else 0
  | LookupPipeline from _ _ _ =>
      if String.eqb from "techstacks" then 4
      else if String.eqb from "jobgroups" then 7
      else 0
  | Group _ _ => 6
  | Project _ => 8
  | Sort _ => 9
  | Skip _ => 10
  | Limit _ => 11
  | _ => 0
  end%nat.

Definition is_pagination (s : stage) : bool :=
  match s with
  | Skip _ | Limit _ => true
  | _ => false
  end.

Definition is_sort (s : stage) : bool :=
  match s with
  | Sort _ => true
  | _ => false
  end.

(** The position of the first stage that passes a test. *)
Fixpoint index_of (f : stage -> bool) (pl : list stage) : option nat :=
  match pl with
  | [] => None
  | s :: pl' => if f s then Some 0%nat else option_map S (index_of f pl')
  end.

Definition is_group (s : stage) : bool :=
  match s with Group _ _ => true | _ => false end.

Definition is_project (s : stage) : bool :=
  match s with Project _ => true | _ => false end.

(** The properties that the caller gave, [None] when it gave no options
    object or the object has no such property. *)
Definition requested_sort (opts : option options) : option string :=
  match opts with Some o => sort o | None => None end.

Definition requested_skip (opts : option options) : option Z :=
  match opts with Some o => skip o | None => None end.

Definition requested_limit (opts : option options) : option Z :=
  match opts with Some o => limit o | None => None end.

Definition popularSort : stage := Sort [("likeCount", -1); ("createdAt", -1)].
Definition latestSort : stage := Sort [("createdAt", -1)].

(** ** What the pipeline computes, from the records *)

(** The stages that work on one document at a time. *)
Definition local (s : stage) : bool :=
  match s with
  | Group _ _ | Sort _ | Skip _ | Limit _ => false
  | _ => true
  end.

Definition likes_of (db : database) (id : N) : list Like :=
  filter (fun l => N.eqb (portfolioID l) id) (likes db).

Definition count_likes (db : database) (id : N) : Z :=
  Z.of_nat (List.length (likes_of db id)).

(** The definitions with a given skill name. *)
Definition definitions_of (db : database) (s : string) : list TechStack :=
  filter (fun t => String.eqb (skill t) s) (techstacks db).

(** The job groups with a given identifier. *)
Definition jobgroups_of (db : database) (j : N) : list JobGroup :=
  filter (fun g => N.eqb (jobgroup_id g) j) (jobgroups db).

(** The skill names that the expansion of [techStack] yields: one row for
    each name, and one row without a name when there is none. *)
Definition skills_of (p : Portfolio) : list (option string) :=
  match techStack p with
  | None | Some [] => [None]
  | Some ss => map Some ss
  end.

(** The definitions that the expansion of [techStackInfo] yields for a
    skill name. *)
Definition infos_of (db : database) (s : option string)
  : list (option TechStack) :=
  match s with
  | None => [None]
  | Some s =>
      match definitions_of db s with
      | [] => [None]
      | ts => map Some ts
      end
  end.

(** The rows of a portfolio before the collapse. *)
Definition liked (db : database) (p : Portfolio) : document :=
  set_field "likeCount" (VNum (count_likes db (portfolio_id p)))
    (set_field "likes"
       (VArr (map VDoc (map like_document (likes_of db (portfolio_id p)))))
       (portfolio_document p)).

Definition skill_row (db : database) (p : Portfolio) (s : option string)
  : document :=
  match s with
  | Some s => set_field "techStack" (VStr s) (liked db p)
  | None => unset "techStack" (liked db p)
  end.

Definition joined (db : database) (p : Portfolio) (s : option string)
  : document :=
  set_field "techStackInfo"
    (VArr (map VDoc (map techstack_document
                       (match s with
                        | Some s => definitions_of db s
                        | None => []
                        end))))
    (skill_row db p s).

Definition info_row (db : database) (p : Portfolio) (s : option string)
    (i : option TechStack) : document :=
  match i with
  | Some t => set_field "techStackInfo" (VDoc (techstack_document t))
                (joined db p s)
  | None => unset "techStackInfo" (joined db p s)
  end.

Definition rows (db : database) (p : Portfolio) : list document :=
  flat_map (fun s => map (info_row db p s) (infos_of db s)) (skills_of p).

(** An entry of the [techStack] of a view. *)
Definition entry (i : option TechStack) : value :=
  match i with
  | Some t => VDoc [ ("skill", VStr (skill t));
                     ("bgColor", VStr (bgColor t));
                     ("textColor", VStr (textColor t));
                     ("jobCode", VStr (jobCode t)) ]
  | None => VDoc []
  end.

Definition entries (db : database) (p : Portfolio) : list value :=
  flat_map (fun s => map entry (infos_of db s)) (skills_of p).

(** The document of a portfolio after the collapse. *)
Definition collapsed (db : database) (p : Portfolio) : document :=
  [ ("_id", VOid (portfolio_id p));
    ("title", VStr (title p));
    ("contents", VStr (contents p));
    ("view", VNum (view p));
    ("images", strings (images p));
    ("tags", strings (tags p));
    ("techStack", VArr (entries db p));
    ("createdAt", VDate (createdAt p));
    ("thumbnailImage", VStr (thumbnailImage p));
    ("userID", VStr (userID p));
    ("likeCount", VNum (count_likes db (portfolio_id p)));
    ("jobGroup", or_null (option_map VOid (jobGroup p))) ].

(** The labels that the job-group resolution yields. *)
Definition labels_of (db : database) (p : Portfolio) : list (option string) :=
  match
    match jobGroup p with Some j => jobgroups_of db j | None => [] end
  with
  | [] => [None]
  | gs => map (fun g => Some (job g)) gs
  end.

(** The view records of a portfolio. *)
Definition view_document (db : database) (p : Portfolio)
    (label : option string) : document :=
  [ ("_id", VOid (portfolio_id p));
    ("title", VStr (title p));
    ("contents", VStr (contents p));
    ("view", VNum (view p));
    ("images", strings (images p));
    ("tags", strings (tags p));
    ("techStack", VArr (entries db p));
    ("createdAt", VDate (createdAt p));
    ("thumbnailImage", VStr (thumbnailImage p));
    ("userID", VStr (userID p));
    ("likeCount", VNum (count_likes db (portfolio_id p))) ]
  ++ optional "jobGroup" (option_map VStr label).

Definition views_of (db : database) (p : Portfolio) : list document :=
  map (view_document db p) (labels_of db p).

(** The portfolios that pass the filter. *)
Definition selected (satisfies : value -> document -> bool) (q : value)
    (db : database) : list Portfolio :=
  filter (fun p => satisfies q (portfolio_document p)) (portfolios db).

(** The stages between the filter and the collapse, the collapse, and the
    stages between the collapse and the sort. *)
Definition expandStages : list stage := firstn 5 (skipn 1 (baseStages VNull)).
Definition collapseStage : list stage := firstn 1 (skipn 6 (baseStages VNull)).
Definition finishStages : list stage := skipn 7 (baseStages VNull).

Definition collapseAccumulators : list (string * accumulator) :=
  match collapseStage with
  | [Group _ accs] => accs
  | _ => []
  end.

Definition sortKeys (s : stage) : list (string * Z) :=
  match s with
  | Sort keys => keys
  | _ => []
  end.

(** The effect of the skip and limit stages that the pipeline has for given
    values of [skip] and [limit]. *)
Definition paginate (skip limit : Z) (ds : list document) : list document :=
  let ds := if 0 <? skip then skipn (Z.to_nat skip) ds else ds in
  if 0 <? limit then firstn (Z.to_nat limit) ds else ds.

(** The view records of the selected portfolios, before they are sorted. *)
Definition listing (satisfies : value -> document -> bool) (db : database)
    (matchStage : option value) : list document :=
  flat_map (views_of db)
    (selected satisfies (default (VDoc []) matchStage) db).

(** ** The order of a listing *)

Definition likeCount_of (d : document) : option Z :=
  match get "likeCount" d with
  | Some (VNum n) => Some n
  | _ => None
  end.

Definition createdAt_of (d : document) : option Z :=
  match get "createdAt" d with
  | Some (VDate t) => Some t
  | _ => None
  end.

(** A record that has a number of likes and a creation date. *)
Definition dated (d : document) : Prop :=
  exists n t, likeCount_of d = Some n /\ createdAt_of d = Some t.

(** [a] may stand before [b]: in a popular listing [a] has more likes, or as
    many and is not older; in the other listings [a] is not older. *)
Definition ordered (popular : bool) (a b : document) : Prop :=
  exists n1 t1 n2 t2,
    likeCount_of a = Some n1 /\ createdAt_of a = Some t1
    /\ likeCount_of b = Some n2 /\ createdAt_of b = Some t2
    /\ if popular then n2 < n1 \/ (n1 = n2 /\ t2 <= t1) else t2 <= t1.

Definition is_popular (opts : option options) : bool :=
  match requested_sort opts with
  | Some s => String.eqb s "popular"
  | None => false
  end.

(** ** Rows and pages *)

(** The record [r] is a view of the portfolio with identifier [id]. *)
Definition is_view_of (id : N) (r : document) : bool :=
  field_eqb (get "_id" r) (Some (VOid id)).

(** The page holds the whole listing: nothing is skipped, and there is no
    limit or the limit is not below the number of portfolios. *)
Definition page_covers (opts : option options) (db : database) : Prop :=
  default 0 (requested_skip opts) <= 0
  /\ (default 15 (requested_limit opts) <= 0
      \/ Z.of_nat (List.length (portfolios db))
         <= default 15 (requested_limit opts)).

(** The label of the job group of a portfolio, when the identifiers of the
    job groups are unique. *)
Definition label_of (db : database) (p : Portfolio) : option string :=
  hd None (labels_of db p).

(** The entries that a tech-stack sequence has according to the description
    of the view record: one for each reference that resolves to a
    definition, none for the others. *)
Definition matched_entries (db : database) (p : Portfolio) : list value :=
  flat_map (fun s => map (fun t => entry (Some t)) (definitions_of db s))
           (default [] (techStack p)).

(** ** A small store *)

Definition everything (q : value) (d : document) : bool := true.

Definition portfolioA : Portfolio :=
  mkPortfolio 1 "Compiler" "A compiler in Go" 3 ["a.png"] ["systems"]
    (Some ["go"; "rust"]) 100 "a-thumb.png" "user-1" (Some 7%N).

Definition portfolioB : Portfolio :=
  mkPortfolio 2 "Sketches" "Drawings" 8 [] [] (Some []) 200
    "b-thumb.png" "user-1" (Some 9%N).

Definition portfolioC : Portfolio :=
  mkPortfolio 3 "Notes" "Plain notes" 0 [] [] None 50
    "c-thumb.png" "user-2" None.

Definition store : database :=
  mkDatabase
    [portfolioA; portfolioB; portfolioC]
    [mkLike 10 1; mkLike 11 1; mkLike 12 3; mkLike 13 99]
    [ mkTechStack 20 "go" "#00ADD8" "#FFFFFF" "backend";
      mkTechStack 21 "js" "#F7DF1E" "#000000" "frontend" ]
    [mkJobGroup 7 "Backend"; mkJobGroup 8 "Frontend"].

Definition goDefinition : TechStack :=
  mkTechStack 20 "go" "#00ADD8" "#FFFFFF" "backend".

(** The expansion stages that keep a row for an empty or missing array. *)
Definition is_outer (s : stage) : bool :=
  match s with
  | Unwind _ preserve => preserve
  | _ => true
  end.

(** Identifiers that are written out are pairwise distinct. *)
Ltac distinct_ids :=
  cbn; repeat constructor; cbn; intuition discriminate.

(** ** The fields of a view record *)

(** The fields that every record of a listing has. *)
Definition viewFields : list string :=
  [ "_id"; "title"; "contents"; "view"; "images"; "tags"; "techStack";
    "createdAt"; "thumbnailImage"; "userID"; "likeCount" ].

(** The options object with the three properties given. *)
Definition withOptions (sort : option string) (skip limit : option Z)
  : option options :=
  Some (mkOptions sort skip limit).

(** A query made of field equalities, as in [{ userID: "user-1" }]. *)
Definition equalityFilter (q : value) (d : document) : bool :=
  match q with
  | VDoc fs =>
      forallb (fun kv : string * value =>
                 field_eqb (get (fst kv) d) (Some (snd kv))) fs
  | _ => false
  end.

Definition byFirstUser : value := VDoc [("userID", VStr "user-1")].

(** * Properties *)

(** ** Doubles that are integers *)

(** The quotient of two integers below [2^53] is rounded to 53 bits, and the
    rounding does not carry it across an integer: [Math.ceil] of the double
    quotient is the ceiling of the exact quotient.  The lemmas follow the
    steps of the division: the operands as 53-bit mantissas, the integer
    quotient of the shifted mantissas with its remainder, and the rounding
    of that quotient to the nearest even. *)

Lemma digits_bounds (p : positive) :
  2 ^ (Zpos (digits2_pos p) - 1) <= Zpos p < 2 ^ Zpos (digits2_pos p).
Proof.
  induction p as [p IH | p IH |]; cbn [digits2_pos].
  - rewrite Pos2Z.inj_succ, Z.pow_succ_r by lia.
    replace (Z.succ (Zpos (digits2_pos p)) - 1)
      with (Z.succ (Zpos (digits2_pos p) - 1)) by lia.
    rewrite Z.pow_succ_r by lia. lia.
  - rewrite Pos2Z.inj_succ, Z.pow_succ_r by lia.
    replace (Z.succ (Zpos (digits2_pos p)) - 1)
      with (Z.succ (Zpos (digits2_pos p) - 1)) by lia.
    rewrite Z.pow_succ_r by lia. lia.
  - cbn. lia.
Qed.

Lemma digits_unique (p : positive) (d : Z) :
  2 ^ (d - 1) <= Zpos p < 2 ^ d -> Zpos (digits2_pos p) = d.
Proof.
  intros [Hlo Hhi]. pose proof (@digits_bounds p) as [Blo Bhi].
  assert (0 < d).
  { destruct (Z.ltb_spec 0 d); [assumption |].
    assert (2 ^ d <= 2 ^ 0) by (apply Z.pow_le_mono_r; lia).
    change (2 ^ 0) with 1 in *. lia. }
  destruct (Z.lt_trichotomy (Zpos (digits2_pos p)) d) as [Hlt | [E | Hgt]];
    [| assumption |].
  - assert (2 ^ Zpos (digits2_pos p) <= 2 ^ (d - 1))
      by (apply Z.pow_le_mono_r; lia).
    lia.
  - assert (2 ^ d <= 2 ^ (Zpos (digits2_pos p) - 1))
      by (apply Z.pow_le_mono_r; lia).
    lia.
Qed.

Lemma iter_xO (m d : positive) :
  Zpos (Pos.iter xO m d) = Zpos m * 2 ^ Zpos d.
Proof.
  induction d as [| d IH] using Pos.peano_ind.
  - cbn. lia.
  - rewrite Pos.iter_succ, Pos2Z.inj_succ, Z.pow_succ_r by lia.
    rewrite Pos2Z.inj_xO, IH. lia.
Qed.

Lemma shift_none (m : positive) (e : Z) :
  Zpos (digits2_pos m) = 53 -> -1021 <= e ->
  fexp 53 1024 (Zdigits2 (Zpos m) + e) - e = 0.
Proof.
  intros Hd He. unfold fexp, emin. cbn [Zdigits2]. rewrite Hd. lia.
Qed.

Lemma round_exact (s : bool) (m : positive) (e : Z) :
  Zpos (digits2_pos m) = 53 -> -1021 <= e <= 971 ->
  binary_round_aux 53 1024 s (Zpos m) e loc_Exact = S754_finite s m e.
Proof.
  intros Hd He. unfold binary_round_aux, shr_fexp.
  rewrite (@shift_none m e Hd) by lia. cbn [shr shr_record_of_loc shr_m
    loc_of_shr_record round_nearest_even].
  rewrite (@shift_none m e Hd) by lia. cbn [shr shr_record_of_loc shr_m].
  destruct (Z.leb_spec e (1024 - 53)); [reflexivity | lia].
Qed.

Lemma shl_align_down (m : positive) (e e' : Z) :
  e' <= e ->
  shl_align m e e' = (Z.to_pos (Zpos m * 2 ^ (e - e')), e').
Proof.
  intros He. unfold shl_align.
  destruct (e' - e) as [| d | d] eqn:E; try lia.
  - assert (e' = e) as -> by lia. rewrite Z.sub_diag. cbn [Z.pow].
    now rewrite Z.mul_1_r.
  - replace (e - e') with (Zpos d) by lia.
    now rewrite <- iter_xO.
Qed.

Lemma digits_le (z : positive) :
  Zpos z < 2 ^ 53 -> Zpos (digits2_pos z) <= 53.
Proof.
  intros Hz. pose proof (@digits_bounds z) as [Blo Bhi].
  destruct (Z.leb_spec (Zpos (digits2_pos z)) 53); [assumption |].
  assert (2 ^ 53 <= 2 ^ (Zpos (digits2_pos z) - 1))
    by (apply Z.pow_le_mono_r; lia).
  lia.
Qed.

Lemma mantissa_value (z : positive) :
  Zpos z < 2 ^ 53 ->
  Zpos (mantissa z) = Zpos z * 2 ^ (53 - Zpos (digits2_pos z)).
Proof.
  intros Hz. pose proof (@digits_le z Hz) as Hd. unfold mantissa.
  assert (0 < 2 ^ (53 - Zpos (digits2_pos z)))
    by (apply Z.pow_pos_nonneg; lia).
  rewrite Z2Pos.id by lia. reflexivity.
Qed.

Lemma mantissa_digits (z : positive) :
  Zpos z < 2 ^ 53 -> Zpos (digits2_pos (mantissa z)) = 53.
Proof.
  intros Hz. pose proof (@digits_le z Hz) as Hd.
  pose proof (@digits_bounds z) as [Blo Bhi].
  apply digits_unique. rewrite mantissa_value by assumption.
  set (d := Zpos (digits2_pos z)) in *.
  assert (Hpos : 0 < 2 ^ (53 - d)) by (apply Z.pow_pos_nonneg; lia).
  replace (53 - 1) with ((d - 1) + (53 - d)) by lia.
  replace 53 with (d + (53 - d)) at 4 by lia.
  rewrite !Z.pow_add_r by lia. nia.
Qed.

Lemma round_canon (s : bool) (z : positive) :
  Zpos z < 2 ^ 53 ->
  binary_round 53 1024 s z 0 = S754_finite s (mantissa z) (exponent z).
Proof.
  intros Hz. pose proof (@digits_le z Hz) as Hd.
  pose proof (@mantissa_digits z Hz) as Hm.
  unfold binary_round, exponent.
  replace (fexp 53 1024 (Zpos (digits2_pos z) + 0))
    with (Zpos (digits2_pos z) - 53)
    by (unfold fexp, emin; lia).
  rewrite shl_align_down by lia.
  replace (0 - (Zpos (digits2_pos z) - 53))
    with (53 - Zpos (digits2_pos z)) by lia.
  fold (mantissa z).
  apply round_exact; [exact Hm | lia].
Qed.

Lemma ofZ_pos (z : positive) :
  Zpos z < 2 ^ 53 ->
  ofZ (Zpos z) = S754_finite false (mantissa z) (exponent z).
Proof. apply round_canon. Qed.

Lemma ofZ_neg (z : positive) :
  Zpos z < 2 ^ 53 ->
  ofZ (Zneg z) = S754_finite true (mantissa z) (exponent z).
Proof. apply round_canon. Qed.

Lemma shr_none (p : positive) (e : Z) (l : location) :
  Zpos (digits2_pos p) = 53 -> -1021 <= e ->
  shr_fexp 53 1024 (Zpos p) e l = (shr_record_of_loc (Zpos p) l, e).
Proof.
  intros Hd He. unfold shr_fexp. now rewrite (@shift_none p e Hd He).
Qed.

Lemma shr_one (p : positive) (e : Z) (l : location) :
  Zpos (digits2_pos p) = 54 -> -1022 <= e ->
  shr_fexp 53 1024 (Zpos p) e l
  = (shr_1 (shr_record_of_loc (Zpos p) l), e + 1).
Proof.
  intros Hd He. unfold shr_fexp.
  replace (fexp 53 1024 (Zdigits2 (Zpos p) + e) - e) with 1
    by (unfold fexp, emin; cbn [Zdigits2]; rewrite Hd; lia).
  reflexivity.
Qed.

Lemma loc_of_record (m : Z) (l : location) :
  loc_of_shr_record (shr_record_of_loc m l) = l
  /\ shr_m (shr_record_of_loc m l) = m.
Proof.
  destruct l as [| []]; split; reflexivity.
Qed.

(** The last step of a rounding: a mantissa of 53 digits, or [2 ^ 53]. *)
Lemma round_finish (s : bool) (m1 e : Z) :
  2 ^ 52 <= m1 <= 2 ^ 53 -> -1021 <= e <= 960 ->
  exists m e',
    (let '(mrs, e') := shr_fexp 53 1024 m1 e loc_Exact in
     match shr_m mrs with
     | Z0 => S754_zero s
     | Zpos m => if e' <=? 1024 - 53 then S754_finite s m e'
                 else S754_infinity s
     | Zneg _ => S754_nan
     end)
    = S754_finite s m e'
    /\ Zpos (digits2_pos m) = 53
    /\ e <= e' <= e + 1
    /\ Zpos m * 2 ^ (e' - e) = m1.
Proof.
  intros Hm He. destruct (Z.eq_dec m1 (2 ^ 53)) as [-> | Hne].
  - exists 4503599627370496%positive, (e + 1).
    change (2 ^ 53) with (Zpos 9007199254740992).
    rewrite (@shr_one 9007199254740992 e loc_Exact) by (try reflexivity; lia).
    cbn [shr_record_of_loc shr_1 shr_m orb].
    destruct (Z.leb_spec (e + 1) (1024 - 53)); [| lia].
    split; [reflexivity |]. split; [reflexivity |]. split; [lia |].
    replace (e + 1 - e) with 1 by lia. reflexivity.
  - destruct m1 as [| p | p]; try (cbn in Hm; lia).
    assert (Hd : Zpos (digits2_pos p) = 53)
      by (apply digits_unique; change (53 - 1) with 52; lia).
    exists p, e. rewrite (@shr_none p e loc_Exact Hd) by lia.
    cbn [shr_record_of_loc shr_m].
    destruct (Z.leb_spec e (1024 - 53)); [| lia].
    split; [reflexivity |]. split; [assumption |]. split; [lia |].
    rewrite Z.sub_diag. cbn [Z.pow]. lia.
Qed.

Lemma new_location_spec (my r : Z) :
  0 < my -> 0 <= r < my ->
  match new_location my r with
  | loc_Exact => r = 0
  | loc_Inexact Lt => 0 < r /\ 2 * r < my
  | loc_Inexact Eq => 0 < r /\ 2 * r = my
  | loc_Inexact Gt => 2 * r > my
  end.
Proof.
  intros Hmy Hr. unfold new_location, new_location_even, new_location_odd.
  destruct (Z.even my) eqn:Heven; destruct (Z.eqb_spec r 0) as [E | Hne];
    try assumption.
  - destruct (Z.compare_spec (2 * r) my); lia.
  - assert (Hodd : Z.odd my = true) by (rewrite <- Z.negb_even, Heven; reflexivity).
    apply Z.odd_spec in Hodd as (k & Hk).
    destruct (Z.compare_spec (2 * r + 1) my); lia.
Qed.

Lemma round_value (s : bool) (q my r e : Z) :
  2 ^ 52 <= q < 2 ^ 54 -> 0 < my -> 0 <= r < my -> -1021 <= e <= 950 ->
  exists m e' Y g,
    binary_round_aux 53 1024 s q e (new_location my r) = S754_finite s m e'
    /\ Zpos (digits2_pos m) = 53
    /\ e <= e' <= e + 2
    /\ Zpos m * 2 ^ (e' - e) = Y
    /\ (g = 1 \/ g = 2)
    /\ Y mod g = 0
    /\ 2 * Y * my - 2 * (q * my + r) <= g * my
    /\ 2 * (q * my + r) - 2 * Y * my <= g * my
    /\ (r = 0 -> q mod g = 0 -> Y = q).
Proof.
  intros Hq Hmy Hr He.
  pose proof (@new_location_spec my r Hmy Hr) as Hloc.
  destruct q as [| qp | qp]; try (cbn in Hq; lia).
  unfold binary_round_aux.
  destruct (Z.ltb_spec (Zpos qp) (2 ^ 53)) as [Hsmall | Hbig].
  - assert (Hd : Zpos (digits2_pos qp) = 53)
      by (apply digits_unique; change (53 - 1) with 52; lia).
    rewrite (@shr_none qp e (new_location my r) Hd) by lia.
    destruct (@loc_of_record (Zpos qp) (new_location my r)) as [-> ->].
    set (m1 := round_nearest_even (Zpos qp) (new_location my r)).
    assert (Hm1 : (m1 = Zpos qp /\ 2 * r <= my /\ (r = 0 -> m1 = Zpos qp))
                  \/ (m1 = Zpos qp + 1 /\ 2 * r >= my /\ r <> 0)).
    { subst m1. destruct (new_location my r) as [| []];
        cbn [round_nearest_even]; try (left; lia); try (right; lia).
      destruct (Z.even (Zpos qp)); [left | right]; lia. }
    destruct (@round_finish s m1 e) as (m & e' & Hres & Hdm & He' & Hval);
      [lia | lia |].
    exists m, e', m1, 1. rewrite Hres.
    split; [reflexivity |]. split; [assumption |]. split; [lia |].
    split; [assumption |]. split; [now left |].
    split; [apply Z.mod_1_r |]. nia.
  - assert (Hd : Zpos (digits2_pos qp) = 54)
      by (apply digits_unique; change (54 - 1) with 53; lia).
    rewrite (@shr_one qp e (new_location my r) Hd) by lia.
    assert (Hhalf : exists p bit mrs,
               Zpos qp = 2 * Zpos p + bit /\ (bit = 0 \/ bit = 1)
               /\ shr_1 (shr_record_of_loc (Zpos qp) (new_location my r))
                  = mrs
               /\ shr_m mrs = Zpos p
               /\ let m1 := round_nearest_even (Zpos p)
                              (loc_of_shr_record mrs) in
                  (m1 = Zpos p /\ (bit = 0 \/ r = 0))
                  \/ (m1 = Zpos p + 1 /\ bit = 1)).
    { destruct qp as [p | p |]; [| | cbn in Hbig; lia].
      - exists p, 1. eexists. split; [lia |]. split; [now right |].
        split; [reflexivity |].
        destruct (new_location my r) as [| []];
          cbn [shr_1 shr_record_of_loc loc_of_shr_record shr_m shr_r shr_s
               round_nearest_even orb] in Hloc |- *;
          (split; [reflexivity |]); cbv zeta.
        all: try (destruct (Z.even (Zpos p))).
        all: try (left; split; [reflexivity | lia]).
        all: try (right; split; [reflexivity | lia]).
      - exists p, 0. eexists. split; [lia |]. split; [now left |].
        split; [reflexivity |].
        destruct (new_location my r) as [| []];
          cbn [shr_1 shr_record_of_loc loc_of_shr_record shr_m shr_r shr_s
               round_nearest_even orb] in Hloc |- *;
          (split; [reflexivity |]); cbv zeta;
          left; (split; [reflexivity | lia]). }
    destruct Hhalf as (p & bit & mrs & Hqp & Hbit & -> & Hmrs & Hm1).
    rewrite Hmrs.
    cbv zeta in Hm1.
    set (m1 := round_nearest_even (Zpos p) _) in *.
    assert (Hm1r : 2 ^ 52 <= m1 <= 2 ^ 53).
    { change (2 ^ 54) with (2 * 2 ^ 53) in Hq.
      change (2 ^ 53) with (2 * 2 ^ 52) in *.
      clearbody m1. lia. }
    destruct (@round_finish s m1 (e + 1)) as (m & e' & Hres & Hdm & He' & Hval);
      [exact Hm1r | lia |].
    clearbody m1.
    exists m, e', (2 * m1), 2. rewrite Hres.
    split; [reflexivity |]. split; [assumption |]. split; [lia |].
    split.
    { replace (e' - e) with (e' - (e + 1) + 1) by lia.
      rewrite Z.pow_add_r by lia. change (2 ^ 1) with 2. lia. }
    split; [now right |].
    split; [rewrite Z.mul_comm; apply Z.mod_mul; lia |].
    assert (Hmod : (Zpos qp) mod 2 = bit).
    { rewrite Hqp, Z.add_comm, Z.mul_comm, Z.mod_add by lia.
      destruct Hbit as [-> | ->]; reflexivity. }
    nia.
Qed.

Lemma quotient_range (mx my q r : Z) :
  2 ^ 52 <= mx < 2 ^ 53 -> 2 ^ 52 <= my < 2 ^ 53 ->
  mx * 2 ^ 53 = my * q + r -> 0 <= r < my ->
  2 ^ 52 <= q < 2 ^ 54.
Proof.
  change (2 ^ 54) with (4 * 2 ^ 52). change (2 ^ 53) with (2 * 2 ^ 52).
  generalize (2 ^ 52). intros P Hx Hy E Hr. split; nia.
Qed.

Lemma divide_canon (sx sy : bool) (a b : positive) :
  Zpos a < 2 ^ 53 -> Zpos b < 2 ^ 53 ->
  let t := 53 + Zpos (digits2_pos b) - Zpos (digits2_pos a) in
  exists m e Y g,
    divide (S754_finite sx (mantissa a) (exponent a))
           (S754_finite sy (mantissa b) (exponent b))
    = S754_finite (xorb sx sy) m e
    /\ Zpos (digits2_pos m) = 53
    /\ 0 <= e + t <= 2
    /\ Zpos m * 2 ^ (e + t) = Y
    /\ (g = 1 \/ g = 2)
    /\ Y mod g = 0
    /\ - (g * Zpos b) <= 2 * Y * Zpos b - 2 * Zpos a * 2 ^ t <= g * Zpos b.
Proof.
  intros Ha Hb t.
  pose proof (@digits_le a Ha) as Hda. pose proof (@digits_le b Hb) as Hdb.
  pose proof (@mantissa_digits a Ha) as Hma.
  pose proof (@mantissa_digits b Hb) as Hmb.
  pose proof (@mantissa_value a Ha) as Hva.
  pose proof (@mantissa_value b Hb) as Hvb.
  pose proof (@digits_bounds (mantissa a)) as Bma.
  pose proof (@digits_bounds (mantissa b)) as Bmb.
  rewrite Hma in Bma. rewrite Hmb in Bmb. change (53 - 1) with 52 in *.
  assert (1 <= Zpos (digits2_pos a)) by lia.
  assert (1 <= Zpos (digits2_pos b)) by lia.
  unfold divide, SFdiv, SFdiv_core_binary. cbn [Zdigits2].
  rewrite Hma, Hmb. unfold exponent.
  set (da := Zpos (digits2_pos a)) in *.
  set (db := Zpos (digits2_pos b)) in *.
  replace (Z.min (fexp 53 1024 (53 + (da - 53) - (53 + (db - 53))))
                 (da - 53 - (db - 53)))
    with (- t) by (unfold fexp, emin, t; lia).
  replace (da - 53 - (db - 53) - - t) with 53 by (unfold t; lia).
  rewrite Z.shiftl_mul_pow2 by lia.
  pose proof (Z_div_mod (Zpos (mantissa a) * 2 ^ 53) (Zpos (mantissa b))
                ltac:(lia)) as Hdm.
  destruct (Z.div_eucl (Zpos (mantissa a) * 2 ^ 53) (Zpos (mantissa b)))
    as [q r].
  destruct Hdm as [Hdm Hr].
  pose proof (@quotient_range _ _ _ _ Bma Bmb Hdm Hr) as Hq.
  destruct (@round_value (xorb sx sy) q (Zpos (mantissa b)) r (- t) Hq)
    as (m & e' & Y & g & Hres & Hdig & He' & HY & Hg & Hmod & Hup & Hdown & _);
    [lia | lia | unfold t; lia |].
  exists m, e', Y, g.
  split; [exact Hres |]. split; [exact Hdig |]. split; [lia |].
  split; [replace (e' + t) with (e' - - t) by lia; exact HY |].
  split; [exact Hg |]. split; [exact Hmod |].
  assert (Hu : 0 < 2 ^ (53 - db)) by (apply Z.pow_pos_nonneg; lia).
  assert (HN : Zpos (mantissa b) * q + r
               = Zpos a * 2 ^ t * 2 ^ (53 - db)).
  { rewrite <- Hdm, Hva. unfold t.
    rewrite <- !Z.mul_assoc, <- !Z.pow_add_r by lia.
    f_equal. f_equal. lia. }
  rewrite Hvb in *.
  set (u := 2 ^ (53 - db)) in *. set (T := 2 ^ t) in *.
  clearbody u T. nia.
Qed.

Lemma rounded_between (A B T Y g : Z) :
  0 < B -> B < T -> T mod 2 = 0 ->
  (g = 1 \/ g = 2) -> Y mod g = 0 ->
  - (g * B) <= 2 * Y * B - 2 * A * T <= g * B ->
  (A mod B = 0 -> Y = A / B * T)
  /\ (A mod B <> 0 -> A / B * T < Y < (A / B + 1) * T).
Proof.
  intros HB HT Heven Hg Hmod Hnear.
  pose proof (Z.div_mod A B ltac:(lia)) as Hdm.
  pose proof (Z.mod_pos_bound A B HB) as Hr.
  set (k := A / B) in *. set (rho := A mod B) in *. clearbody k rho.
  split.
  - intros ->.
    destruct Hg as [-> | ->]; [nia |].
    apply Z.mod_divide in Hmod as [y ->]; [| lia].
    apply Z.mod_divide in Heven as [T' ->]; [| lia].
    nia.
  - intros Hrho. split.
    + destruct (Z.ltb_spec (k * T) Y) as [| Hle]; [assumption | exfalso].
      assert (2 * rho * T <= g * B) by nia.
      assert (2 * T <= 2 * rho * T) by nia.
      destruct Hg as [-> | ->]; lia.
    + destruct (Z.ltb_spec Y ((k + 1) * T)) as [| Hle]; [assumption | exfalso].
      assert (2 * (B - rho) * T <= g * B) by nia.
      assert (2 * T <= 2 * (B - rho) * T) by nia.
      destruct Hg as [-> | ->]; lia.
Qed.

Lemma rounded_floor (A B T Y g : Z) :
  0 < B -> B < T -> T mod 2 = 0 ->
  (g = 1 \/ g = 2) -> Y mod g = 0 ->
  - (g * B) <= 2 * Y * B - 2 * A * T <= g * B ->
  Y / T = A / B.
Proof.
  intros HB HT Heven Hg Hmod Hnear.
  destruct (@rounded_between A B T Y g HB HT Heven Hg Hmod Hnear)
    as [Hexact Hstrict].
  destruct (Z.eq_dec (A mod B) 0) as [E | E].
  - rewrite (Hexact E). apply Z.div_mul. lia.
  - specialize (Hstrict E). symmetry.
    apply (Z.div_unique Y T (A / B) (Y - A / B * T)); lia.
Qed.

Lemma rounded_ceiling (A B T Y g : Z) :
  0 < B -> B < T -> T mod 2 = 0 ->
  (g = 1 \/ g = 2) -> Y mod g = 0 ->
  - (g * B) <= 2 * Y * B - 2 * A * T <= g * B ->
  - (- Y / T) = - (- A / B).
Proof.
  intros HB HT Heven Hg Hmod Hnear.
  destruct (@rounded_between A B T Y g HB HT Heven Hg Hmod Hnear)
    as [Hexact Hstrict].
  pose proof (Z.div_mod A B ltac:(lia)) as Hdm.
  pose proof (Z.mod_pos_bound A B HB) as Hr.
  destruct (Z.eq_dec (A mod B) 0) as [E | E].
  - rewrite (Hexact E). rewrite <- Z.mul_opp_l, Z.div_mul by lia.
    f_equal.
    apply (Z.div_unique (- A) B (- (A / B)) 0); lia.
  - specialize (Hstrict E). f_equal.
    transitivity (- (A / B + 1)).
    + symmetry.
      apply (Z.div_unique (- Y) T (- (A / B + 1)) ((A / B + 1) * T - Y));
        lia.
    + apply (Z.div_unique (- A) B (- (A / B + 1)) (B - A mod B)); lia.
Qed.

Lemma canon_self (s : bool) (m : positive) :
  Zpos (digits2_pos m) = 53 ->
  binary_round 53 1024 s m 0 = S754_finite s m 0.
Proof.
  intros Hd. pose proof (@digits_bounds m) as Hb. rewrite Hd in Hb.
  rewrite round_canon by lia. unfold mantissa, exponent. rewrite Hd.
  change (53 - 53) with 0. change (2 ^ 0) with 1. rewrite Z.mul_1_r.
  reflexivity.
Qed.

Lemma ceil_divide_canon (sx sy : bool) (a b : positive) :
  Zpos a < 2 ^ 53 -> Zpos b < 2 ^ 53 ->
  ceil (divide (S754_finite sx (mantissa a) (exponent a))
               (S754_finite sy (mantissa b) (exponent b)))
  = if xorb sx sy
    then (if Zpos a / Zpos b =? 0 then S754_zero true
          else ofZ (- (Zpos a / Zpos b)))
    else ofZ (- (- Zpos a / Zpos b)).
Proof.
  intros Ha Hb.
  destruct (@divide_canon sx sy a b Ha Hb)
    as (m & e & Y & g & Hres & Hdig & He & HY & Hg & Hmod & Hnear).
  rewrite Hres. clear Hres.
  pose proof (@digits_le a Ha) as Hda.
  pose proof (@digits_bounds b) as Bb.
  pose proof (@digits_bounds m) as Bm. rewrite Hdig in Bm.
  change (53 - 1) with 52 in Bm.
  set (t := 53 + Zpos (digits2_pos b) - Zpos (digits2_pos a)) in *.
  assert (Ht : Zpos (digits2_pos b) <= t) by (unfold t; lia).
  assert (HBT : Zpos b < 2 ^ t).
  { assert (2 ^ Zpos (digits2_pos b) <= 2 ^ t)
      by (apply Z.pow_le_mono_r; lia).
    lia. }
  assert (Heven : 2 ^ t mod 2 = 0).
  { replace t with (1 + (t - 1)) by lia.
    rewrite Z.pow_add_r, Z.mul_comm by lia. apply Z.mod_mul. lia. }
  pose proof (@rounded_floor (Zpos a) (Zpos b) (2 ^ t) Y g
                ltac:(lia) HBT Heven Hg Hmod Hnear) as Hfloor.
  pose proof (@rounded_ceiling (Zpos a) (Zpos b) (2 ^ t) Y g
                ltac:(lia) HBT Heven Hg Hmod Hnear) as Hceil.
  assert (Hdown : 0 <= Zpos a / Zpos b <= Zpos a).
  { split; [apply Z.div_pos; lia |].
    apply Z.div_le_upper_bound; [lia | nia]. }
  assert (Hup : 0 <= - (- Zpos a / Zpos b) <= Zpos a).
  { pose proof (Z.div_mod (- Zpos a) (Zpos b) ltac:(lia)) as Hdm.
    pose proof (Z.mod_pos_bound (- Zpos a) (Zpos b) ltac:(lia)) as Hr.
    nia. }
  unfold ceil. destruct (Z.leb_spec 0 e) as [Hpos | Hneg].
  - assert (HYT : Y = Zpos m * 2 ^ e * 2 ^ t)
      by (rewrite <- HY, Z.pow_add_r by lia; lia).
    assert (HT : 0 < 2 ^ t) by lia.
    rewrite HYT in Hfloor, Hceil.
    rewrite Z.div_mul in Hfloor by lia.
    rewrite <- Z.mul_opp_l, Z.div_mul, Z.opp_involutive in Hceil by lia.
    assert (e = 0) as ->.
    { destruct (Z.eq_dec e 0) as [| Hne]; [assumption | exfalso].
      assert (2 ^ 1 <= 2 ^ e) by (apply Z.pow_le_mono_r; lia).
      change (2 ^ 1) with 2 in *. change (2 ^ 53) with (2 * 2 ^ 52) in *.
      nia. }
    change (2 ^ 0) with 1 in *. rewrite Z.mul_1_r in *.
    rewrite <- Hfloor, <- Hceil.
    destruct (xorb sx sy).
    + cbn [Z.eqb]. unfold ofZ. cbn [Z.opp binary_normalize].
      now rewrite canon_self.
    + unfold ofZ. cbn [binary_normalize]. now rewrite canon_self.
  - assert (Hsplit : 2 ^ t = 2 ^ (- e) * 2 ^ (e + t))
      by (rewrite <- Z.pow_add_r by lia; f_equal; lia).
    assert (0 < 2 ^ (- e)) by (apply Z.pow_pos_nonneg; lia).
    assert (0 < 2 ^ (e + t)) by (apply Z.pow_pos_nonneg; lia).
    rewrite <- HY, Hsplit in Hfloor, Hceil.
    rewrite Z.div_mul_cancel_r in Hfloor by lia.
    rewrite <- Z.mul_opp_l, Z.div_mul_cancel_r in Hceil by lia.
    change (- Zpos m) with (Zneg m) in Hceil.
    destruct (xorb sx sy).
    + rewrite Hfloor. reflexivity.
    + cbn [Z.opp]. rewrite Hceil. reflexivity.
Qed.

Lemma toZ_canon (s : bool) (z : positive) :
  Zpos z < 2 ^ 53 ->
  toZ (S754_finite s (mantissa z) (exponent z))
  = Some (cond_Zopp s (Zpos z)).
Proof.
  intros Hz. pose proof (@digits_le z Hz) as Hd.
  cbn [toZ]. rewrite mantissa_value by assumption. unfold exponent.
  set (d := Zpos (digits2_pos z)) in *.
  destruct (Z.leb_spec 0 (d - 53)) as [H0 | Hneg].
  - replace d with 53 by lia. change (53 - 53) with 0.
    change (2 ^ 0) with 1. now rewrite !Z.mul_1_r.
  - replace (- (d - 53)) with (53 - d) by lia.
    assert (0 < 2 ^ (53 - d)) by (apply Z.pow_pos_nonneg; lia).
    rewrite Z.mod_mul, Z.div_mul by lia. reflexivity.
Qed.

Lemma toZ_ofZ (z : Z) :
  - 2 ^ 53 < z < 2 ^ 53 -> toZ (ofZ z) = Some z.
Proof.
  intros Hz. destruct z as [| p | p].
  - reflexivity.
  - rewrite ofZ_pos by lia. now rewrite toZ_canon by lia.
  - rewrite ofZ_neg by lia. now rewrite toZ_canon by lia.
Qed.

Lemma compare_canon (a b : positive) :
  Zpos a < 2 ^ 53 -> Zpos b < 2 ^ 53 ->
  match exponent a ?= exponent b with
  | Lt => Lt
  | Gt => Gt
  | Eq => Pos.compare_cont Eq (mantissa a) (mantissa b)
  end = (Zpos a ?= Zpos b).
Proof.
  intros Ha Hb. pose proof (@digits_le a Ha) as Hda.
  pose proof (@digits_le b Hb) as Hdb.
  pose proof (@digits_bounds a) as Ba. pose proof (@digits_bounds b) as Bb.
  unfold exponent.
  destruct (Z.compare_spec (Zpos (digits2_pos a) - 53)
                           (Zpos (digits2_pos b) - 53)) as [E | L | G].
  - change (Pos.compare_cont Eq (mantissa a) (mantissa b))
      with (Zpos (mantissa a) ?= Zpos (mantissa b)).
    rewrite !mantissa_value by assumption.
    replace (Zpos (digits2_pos b)) with (Zpos (digits2_pos a)) by lia.
    assert (0 < 2 ^ (53 - Zpos (digits2_pos a)))
      by (apply Z.pow_pos_nonneg; lia).
    destruct (Z.compare_spec (Zpos a) (Zpos b));
      [apply Z.compare_eq_iff | apply Z.compare_lt_iff
       | apply Z.compare_gt_iff]; nia.
  - symmetry. apply Z.compare_lt_iff.
    assert (2 ^ Zpos (digits2_pos a) <= 2 ^ (Zpos (digits2_pos b) - 1))
      by (apply Z.pow_le_mono_r; lia).
    lia.
  - symmetry. apply Z.compare_gt_iff.
    assert (2 ^ Zpos (digits2_pos b) <= 2 ^ (Zpos (digits2_pos a) - 1))
      by (apply Z.pow_le_mono_r; lia).
    lia.
Qed.

Lemma compare_ofZ (p q : Z) :
  - 2 ^ 53 < p < 2 ^ 53 -> - 2 ^ 53 < q < 2 ^ 53 ->
  SFcompare (ofZ p) (ofZ q) = Some (p ?= q).
Proof.
  intros Hp Hq.
  destruct p as [| a | a]; destruct q as [| b | b];
    rewrite ?ofZ_pos, ?ofZ_neg by lia; try reflexivity.
  - cbn [SFcompare]. now rewrite compare_canon by lia.
  - pose proof (@compare_canon a b ltac:(lia) ltac:(lia)) as H.
    change (Zpos a ?= Zpos b) with (a ?= b)%positive in H.
    cbn [SFcompare Z.compare]. rewrite <- H.
    now destruct (exponent a ?= exponent b).
Qed.

Lemma lessThan_ofZ (p q : Z) :
  - 2 ^ 53 < p < 2 ^ 53 -> - 2 ^ 53 < q < 2 ^ 53 ->
  lessThan (ofZ p) (ofZ q) = (p <? q).
Proof.
  intros Hp Hq. unfold lessThan, SFltb. rewrite compare_ofZ by assumption.
  unfold Z.ltb. now destruct (p ?= q).
Qed.

Lemma lessThan_zero (x : number) (s : bool) :
  lessThan x (S754_zero s) = lessThan x (ofZ 0).
Proof. now destruct x. Qed.

Lemma ceil_divide (a b : Z) :
  - 2 ^ 53 < a < 2 ^ 53 -> - 2 ^ 53 < b < 2 ^ 53 -> b <> 0 ->
  ceil (divide (ofZ a) (ofZ b))
  = if (- (- a / b) =? 0) && xorb (a <? 0) (b <? 0)
    then S754_zero true
    else ofZ (- (- a / b)).
Proof.
  intros Ha Hb Hnz.
  destruct a as [| A | A]; destruct b as [| B | B]; try lia;
    rewrite ?ofZ_pos, ?ofZ_neg by lia.
  - reflexivity.
  - reflexivity.
  - rewrite ceil_divide_canon by lia. cbn [xorb Z.ltb Z.compare].
    now rewrite andb_false_r.
  - rewrite ceil_divide_canon by lia. cbn [xorb Z.ltb Z.compare Z.opp].
    rewrite andb_true_r.
    change (Zneg A) with (- Zpos A). change (Zneg B) with (- Zpos B).
    rewrite Z.div_opp_opp by lia.
    destruct (Z.eqb_spec (Zpos A / Zpos B) 0) as [-> | Hne]; [reflexivity |].
    destruct (Z.eqb_spec (- (Zpos A / Zpos B)) 0); [lia | reflexivity].
  - rewrite ceil_divide_canon by lia. cbn [xorb Z.ltb Z.compare Z.opp].
    rewrite andb_true_r.
    destruct (Z.eqb_spec (Zpos A / Zpos B) 0) as [-> | Hne]; [reflexivity |].
    destruct (Z.eqb_spec (- (Zpos A / Zpos B)) 0); [lia | reflexivity].
  - rewrite ceil_divide_canon by lia. cbn [xorb Z.ltb Z.compare Z.opp].
    rewrite andb_false_r.
    assert (E : Zpos A / Zneg B = Zneg A / Zpos B)
      by (apply (Z.div_opp_opp (Zneg A) (Zpos B)); lia).
    now rewrite E.
Qed.

Lemma toZ_ceil_divide (a b : Z) :
  - 2 ^ 53 < a < 2 ^ 53 -> - 2 ^ 53 < b < 2 ^ 53 -> b <> 0 ->
  toZ (ceil (divide (ofZ a) (ofZ b))) = Some (- (- a / b)).
Proof.
  intros Ha Hb Hnz. rewrite ceil_divide by assumption.
  assert (Hc : - 2 ^ 53 < - (- a / b) < 2 ^ 53).
  { destruct (Z.lt_trichotomy b 0) as [Hneg | [E | Hpos]]; [| lia |].
    - pose proof (Z.div_mod (- a) b ltac:(lia)) as Hdm.
      pose proof (Z.mod_neg_bound (- a) b Hneg) as Hr. nia.
    - pose proof (Z.div_mod (- a) b ltac:(lia)) as Hdm.
      pose proof (Z.mod_pos_bound (- a) b Hpos) as Hr. nia. }
  destruct (Z.eqb_spec (- (- a / b)) 0) as [E | Hne];
    cbn [andb]; [| now apply toZ_ofZ].
  rewrite E. now destruct (xorb (a <? 0) (b <? 0)).
Qed.

Lemma lessThan_ceil_divide (p a b : Z) :
  - 2 ^ 53 < p < 2 ^ 53 ->
  - 2 ^ 53 < a < 2 ^ 53 -> - 2 ^ 53 < b < 2 ^ 53 -> b <> 0 ->
  lessThan (ofZ p) (ceil (divide (ofZ a) (ofZ b))) = (p <? - (- a / b)).
Proof.
  intros Hp Ha Hb Hnz. rewrite ceil_divide by assumption.
  assert (Hc : - 2 ^ 53 < - (- a / b) < 2 ^ 53).
  { destruct (Z.lt_trichotomy b 0) as [Hneg | [E | Hpos]]; [| lia |].
    - pose proof (Z.div_mod (- a) b ltac:(lia)) as Hdm.
      pose proof (Z.mod_neg_bound (- a) b Hneg) as Hr. nia.
    - pose proof (Z.div_mod (- a) b ltac:(lia)) as Hdm.
      pose proof (Z.mod_pos_bound (- a) b Hpos) as Hr. nia. }
  destruct (Z.eqb_spec (- (- a / b)) 0) as [E | Hne]; cbn [andb].
  - rewrite E.
    destruct (xorb (a <? 0) (b <? 0));
      rewrite ?lessThan_zero; now apply lessThan_ofZ.
  - now apply lessThan_ofZ.
Qed.

(** The division and [Math.ceil] on values whose doubles are known: 1 / 3
    is 0x3FD5555555555555, 5 / -0 is -Infinity, 0 / 0 is NaN, the ceiling
    of -1 / 2 is -0 and the ceiling of 100 / 15 is 7. *)
Example divide_examples :
  divide (ofZ 1) (ofZ 3) = S754_finite false 6004799503160661 (-54)
  /\ divide (ofZ 5) (S754_zero true) = S754_infinity true
  /\ divide (ofZ 0) (ofZ 0) = S754_nan
  /\ ceil (divide (ofZ (-1)) (ofZ 2)) = S754_zero true
  /\ ceil (divide (ofZ 100) (ofZ 15)) = ofZ 7.
Proof.
  repeat split; vm_compute; reflexivity.
Qed.

Lemma ceiling_bounds (a b : Z) :
  0 < b -> (- (- a / b) - 1) * b < a <= - (- a / b) * b.
Proof.
  intros Hb.
  pose proof (Z.div_mod (- a) b ltac:(lia)) as Hdm.
  pose proof (Z.mod_pos_bound (- a) b Hb) as Hr.
  nia.
Qed.

Lemma ceiling_range (a b : Z) :
  0 <= a < 2 ^ 53 -> 0 < b -> 0 <= - (- a / b) < 2 ^ 53.
Proof.
  intros Ha Hb. pose proof (@ceiling_bounds a b Hb). nia.
Qed.

(** ** Pagination metadata *)

(** C8, as stated for every count, page and limit, fails beyond [2^53]:
    13510798882111492, 4503599627370497 and 3 are integers that a double
    holds, the ceiling of 13510798882111492 / 3 is 4503599627370498, but
    the quotient is rounded to 4503599627370497 before [Math.ceil] sees
    it: [totalPages] is 4503599627370497 and [hasNextPage] is false, where
    [page < ceiling (totalCount / limit)] holds. *)
Lemma totalPages_rounded :
  toZ (ofZ 13510798882111492) = Some 13510798882111492
  /\ toZ (ofZ 4503599627370497) = Some 4503599627370497
  /\ toZ (ofZ 3) = Some 3
  /\ createPaginationMetadata
       (ofZ 13510798882111492) (ofZ 4503599627370497) (ofZ 3)
     = Meta.mk (ofZ 4503599627370497) (ofZ 4503599627370497)
               (ofZ 13510798882111492) false true (ofZ 3)
  /\ - (- 13510798882111492 / 3) = 4503599627370498
  /\ (4503599627370497 <? - (- 13510798882111492 / 3)) = true
  /\ Meta.totalPages
       (createPaginationMetadata
          (ofZ 13510798882111492) (ofZ 4503599627370497) (ofZ 3))
     <> ofZ (- (- 13510798882111492 / 3)).
Proof.
  repeat split; try (vm_compute; reflexivity).
  vm_compute. discriminate.
Qed.

(** C8, amended: for integers below [2^53], with [totalCount >= 0],
    [page >= 1] and [limit > 0], the metadata is [{currentPage: page,
    totalPages, totalCount, hasNextPage: page < totalPages, hasPrevPage:
    page > 1, limit}], where [totalPages] is the ceiling of
    [totalCount / limit] (the least integer whose product with [limit]
    reaches [totalCount]), 0 when [totalCount] is 0; and the three listed
    calls give the listed records. *)
Theorem createPaginationMetadata_correct :
  (forall totalCount page limit : Z,
      0 <= totalCount < 2 ^ 53 -> 1 <= page < 2 ^ 53 ->
      0 < limit < 2 ^ 53 ->
      exists pages : Z,
        createPaginationMetadata (ofZ totalCount) (ofZ page) (ofZ limit)
        = Meta.mk (ofZ page) (ofZ pages) (ofZ totalCount)
                  (page <? pages) (1 <? page) (ofZ limit)
        /\ toZ (ofZ pages) = Some pages
        /\ (pages - 1) * limit < totalCount <= pages * limit
        /\ (totalCount = 0 -> pages = 0))
  /\ createPaginationMetadata (ofZ 0) (ofZ 1) (ofZ 15)
     = Meta.mk (ofZ 1) (ofZ 0) (ofZ 0) false false (ofZ 15)
  /\ createPaginationMetadata (ofZ 100) (ofZ 3) (ofZ 15)
     = Meta.mk (ofZ 3) (ofZ 7) (ofZ 100) true true (ofZ 15)
  /\ createPaginationMetadata (ofZ 15) (ofZ 1) (ofZ 15)
     = Meta.mk (ofZ 1) (ofZ 1) (ofZ 15) false false (ofZ 15).
Proof.
  split; [| repeat split; vm_compute; reflexivity].
  intros totalCount page limit Hc Hp Hl.
  pose proof (@ceiling_bounds totalCount limit ltac:(lia)) as Hbounds.
  pose proof (@ceiling_range totalCount limit Hc ltac:(lia)) as Hrange.
  exists (- (- totalCount / limit)). split; [| split; [| split]].
  - unfold createPaginationMetadata.
    rewrite lessThan_ceil_divide, lessThan_ofZ by lia.
    rewrite ceil_divide by lia.
    replace (totalCount <? 0) with false by (symmetry; apply Z.ltb_ge; lia).
    replace (limit <? 0) with false by (symmetry; apply Z.ltb_ge; lia).
    cbn [xorb]. now rewrite andb_false_r.
  - apply toZ_ofZ. lia.
  - exact Hbounds.
  - intros ->. nia.
Qed.

Lemma createPaginationMetadata_correct_witness :
  exists pages : Z,
    createPaginationMetadata (ofZ 31) (ofZ 2) (ofZ 15)
    = Meta.mk (ofZ 2) (ofZ pages) (ofZ 31) (2 <? pages) (1 <? 2) (ofZ 15)
    /\ toZ (ofZ pages) = Some pages
    /\ (pages - 1) * 15 < 31 <= pages * 15
    /\ (31 = 0 -> pages = 0).
Proof.
  apply (proj1 createPaginationMetadata_correct); lia.
Defined.

(** ** The shape of the pipeline *)

Lemma pipeline_unfold (m : option value) (opts : option options) :
  createPortfolioPipeline m opts
  = baseStages (match m with Some q => q | None => VDoc [] end)
    ++ [sortStage (match requested_sort opts with
                   | Some s => s
                   | None => "latest"
                   end)]
    ++ skipStage (match requested_skip opts with Some n => n | None => 0 end)
    ++ limitStage (match requested_limit opts with
                   | Some n => n
                   | None => 15
                   end).
Proof.
  destruct m, opts as [[s k l] |]; reflexivity.
Qed.

Lemma sortStage_cases (s : string) :
  (s = "popular" /\ sortStage s = popularSort)
  \/ (s <> "popular" /\ sortStage s = latestSort).
Proof.
  unfold sortStage. destruct (String.eqb_spec s "popular"); auto.
Qed.

Lemma pipeline_sort_position (m : option value) (opts : option options) :
  nth_error (createPortfolioPipeline m opts) 10
  = Some (sortStage (match requested_sort opts with
                     | Some s => s
                     | None => "latest"
                     end)).
Proof.
  rewrite pipeline_unfold. reflexivity.
Qed.

(** C5: the stage sequence is a function of its arguments made of eleven
    stages, none of them a skip or a limit, followed by a skip stage exactly
    when [options.skip > 0] and then, last, a limit stage exactly when
    [options.limit > 0]; [skip] is 0 and [limit] is 15 when they are not
    given, so that the pipeline of a call without options ends with the
    limit of 15 and has no skip stage. *)
Theorem pipeline_pagination_stages (m : option value) (opts : option options) :
  let s := match requested_skip opts with Some n => n | None => 0 end in
  let l := match requested_limit opts with Some n => n | None => 15 end in
  exists fixed : list stage,
    createPortfolioPipeline m opts
    = fixed ++ (if 0 <? s then [Skip s] else [])
            ++ (if 0 <? l then [Limit l] else [])
    /\ List.length fixed = 11%nat
    /\ existsb is_pagination fixed = false
    /\ createPortfolioPipeline m None
       = firstn 11 (createPortfolioPipeline m None) ++ [Limit 15]
    /\ createPortfolioPipeline m (Some noOptions)
       = createPortfolioPipeline m None.
Proof.
  intros s l. subst s l.
  exists (firstn 11 (createPortfolioPipeline m opts)).
  rewrite !pipeline_unfold.
  destruct (sortStage_cases
              (match requested_sort opts with
               | Some s => s
               | None => "latest"
               end)) as [[Hs ->] | [Hs ->]].
  - repeat split; reflexivity.
  - repeat split; reflexivity.
Qed.

(** C6: the pipeline begins with the filter stage that carries the match
    criteria as they were given (the empty query when none were given), and
    its stages are, one after the other and each with the parameters
    written out: the filter; the like aggregation (the lookup of the likes
    of the portfolio by [portfolioID], then [likeCount] as their number);
    the outer expansion of [techStack]; the resolution of the skill against
    the [skill] of the tech stacks into [techStackInfo]; the outer expansion
    of [techStackInfo]; the collapse by [_id], which takes the first value
    of every scalar field and pushes one [{skill, bgColor, textColor,
    jobCode}] entry for each row; the job-group resolution (the lookup of
    the job group by [_id], reduced to its [job], then its outer
    expansion); the projection of the fields of the view record, with
    [jobGroup] taken from the resolved [job]; one of the two sorts; and
    then a skip, a limit, both or neither.  In terms of the steps of the
    listing this is the order 1, 2, 2, 3, 4, 5, 6, 7, 7, 8, 9 followed by
    10 and 11 where they are present. *)
Theorem pipeline_stage_order (m : option value) (opts : option options) :
  hd_error (createPortfolioPipeline m opts)
  = Some (Match (match m with Some q => q | None => VDoc [] end))
  /\ (exists (sorting : stage) (rest : list stage),
        createPortfolioPipeline m opts
        = [ Match (match m with Some q => q | None => VDoc [] end);
            Lookup "likes" "_id" "portfolioID" "likes";
            AddFields [("likeCount", ESize (EField ["likes"]))];
            Unwind "techStack" true;
            LookupPipeline "techstacks" [("techSkill", EField ["techStack"])]
              [MatchExpr (EEq (EField ["skill"]) (EVar "techSkill"))]
              "techStackInfo";
            Unwind "techStackInfo" true;
            Group (EField ["_id"])
              [ ("title", First (EField ["title"]));
                ("contents", First (EField ["contents"]));
                ("view", First (EField ["view"]));
                ("images", First (EField ["images"]));
                ("tags", First (EField ["tags"]));
                ("techStack",
                  Push (EObj
                    [ ("skill", EField ["techStackInfo"; "skill"]);
                      ("bgColor", EField ["techStackInfo"; "bgColor"]);
                      ("textColor", EField ["techStackInfo"; "textColor"]);
                      ("jobCode", EField ["techStackInfo"; "jobCode"]) ]));
                ("createdAt", First (EField ["createdAt"]));
                ("thumbnailImage", First (EField ["thumbnailImage"]));
                ("userID", First (EField ["userID"]));
                ("likeCount", First (EField ["likeCount"]));
                ("jobGroup", First (EField ["jobGroup"])) ];
            LookupPipeline "jobgroups" [("jobGroupId", EField ["jobGroup"])]
              [ MatchExpr (EEq (EField ["_id"]) (EVar "jobGroupId"));
                Project [("_id", Excluded); ("job", Included)] ]
              "jobGroupInfo";
            Unwind "jobGroupInfo" true;
            Project
              [ ("_id", Included); ("title", Included);
                ("contents", Included); ("view", Included);
                ("images", Included); ("tags", Included);
                ("techStack", Included); ("createdAt", Included);
                ("thumbnailImage", Included); ("userID", Included);
                ("likeCount", Included);
                ("jobGroup", Computed (EField ["jobGroupInfo"; "job"])) ];
            sorting ]
          ++ rest
        /\ (sorting = popularSort \/ sorting = latestSort)
        /\ (rest = [] \/ (exists k, rest = [Skip k])
            \/ (exists l, rest = [Limit l])
            \/ (exists k l, rest = [Skip k; Limit l])))
  /\ exists tail : list nat,
       map step (createPortfolioPipeline m opts)
       = [1; 2; 2; 3; 4; 5; 6; 7; 7; 8; 9]%nat ++ tail
       /\ (tail = [] \/ tail = [10%nat] \/ tail = [11%nat]
           \/ tail = [10; 11]%nat).
Proof.
  rewrite pipeline_unfold. split; [reflexivity |].
  set (s := match requested_sort opts with Some s => s | None => "latest" end).
  set (k := match requested_skip opts with Some n => n | None => 0 end).
  set (l := match requested_limit opts with Some n => n | None => 15 end).
  split.
  - exists (sortStage s), (skipStage k ++ limitStage l).
    split; [reflexivity |]. split.
    + destruct (sortStage_cases s) as [[_ Hs] | [_ Hs]]; auto.
    + unfold skipStage, limitStage.
      destruct (0 <? k), (0 <? l); cbn; eauto 6.
  - exists (map step (skipStage k ++ limitStage l)). split.
    + destruct (sortStage_cases s) as [[_ Hs] | [_ Hs]];
        rewrite !map_app, Hs; reflexivity.
    + unfold skipStage, limitStage.
      destruct (0 <? k), (0 <? l); cbn; auto.
Qed.

(** C10: every value of [options.sort] other than the string ["popular"],
    a value that is not given included, selects the sort by [createdAt]
    descending; the sort by [likeCount] is selected by ["popular"] and by
    nothing else. *)
Theorem sort_selection (m : option value) (opts : option options) :
  (requested_sort opts <> Some "popular" ->
   nth_error (createPortfolioPipeline m opts) 10 = Some latestSort)
  /\ (nth_error (createPortfolioPipeline m opts) 10 = Some popularSort
      <-> requested_sort opts = Some "popular").
Proof.
  rewrite pipeline_sort_position.
  destruct (requested_sort opts) as [s |].
  - destruct (sortStage_cases s) as [[-> ->] | [Hs ->]].
    + split; [congruence | split; reflexivity].
    + split; [reflexivity |]. split; [discriminate | congruence].
  - split; [reflexivity |]. split; discriminate.
Qed.

Lemma sort_selection_witness :
  nth_error
    (createPortfolioPipeline None (Some (mkOptions (Some "Popular") None None)))
    10
  = Some latestSort.
Proof.
  apply (proj1 (sort_selection None
                  (Some (mkOptions (Some "Popular") None None)))).
  cbn. discriminate.
Defined.

(** ** Documents and paths *)

Lemma get_set_field_same (k : string) (v : value) (d : document) :
  get k (set_field k v d) = Some v.
Proof.
  induction d as [| [k' v'] d IH]; cbn.
  - now rewrite String.eqb_refl.
  - destruct (String.eqb k k') eqn:E; cbn.
    + now rewrite String.eqb_refl.
    + now rewrite E.
Qed.

Lemma get_set_field_other (k k' : string) (v : value) (d : document) :
  String.eqb k k' = false ->
  get k (set_field k' v d) = get k d.
Proof.
  intros Hk. induction d as [| [k0 v0] d IH]; cbn.
  - now rewrite Hk.
  - destruct (String.eqb k' k0) eqn:E; cbn.
    + apply String.eqb_eq in E. subst k0. now rewrite Hk.
    + now rewrite IH.
Qed.

Lemma get_unset_same (k : string) (d : document) : get k (unset k d) = None.
Proof.
  induction d as [| [k' v'] d IH]; cbn; [reflexivity |].
  destruct (String.eqb k k') eqn:E; cbn; [assumption | now rewrite E].
Qed.

Lemma get_unset_other (k k' : string) (d : document) :
  String.eqb k k' = false ->
  get k (unset k' d) = get k d.
Proof.
  intros Hk. induction d as [| [k0 v0] d IH]; cbn; [reflexivity |].
  destruct (String.eqb k' k0) eqn:E; cbn.
  - apply String.eqb_eq in E. subst k0. now rewrite Hk.
  - now rewrite IH.
Qed.

Lemma unset_absent (k : string) (d : document) :
  get k d = None -> unset k d = d.
Proof.
  induction d as [| [k' v'] d IH]; cbn; [reflexivity |].
  destruct (String.eqb k k'); [discriminate |].
  intros H. now rewrite IH.
Qed.

Lemma get_path_field (k : string) (p : list string) (d : document) :
  get_path (k :: p) (VDoc d)
  = match get k d with Some v => get_path p v | None => None end.
Proof.
  induction d as [| [k' v'] d IH]; cbn; [reflexivity |].
  destruct (String.eqb k k'); [reflexivity | exact IH].
Qed.

Lemma eval_field (vars : variables) (d : document) (k : string) :
  eval vars d (EField [k]) = Some (get k d).
Proof.
  cbn [eval]. rewrite get_path_field. now destruct (get k d) as [[] |].
Qed.

(** ** Lists of results *)

Lemma mapM_app {A B : Type} (f : A -> option B) (l1 l2 : list A) :
  mapM f (l1 ++ l2)
  = (x <- mapM f l1 ;; y <- mapM f l2 ;; Some (x ++ y)).
Proof.
  induction l1 as [| a l1 IH]; cbn.
  - now destruct (mapM f l2).
  - destruct (f a); cbn; [| reflexivity].
    rewrite IH. destruct (mapM f l1); cbn; [| reflexivity].
    now destruct (mapM f l2).
Qed.

Lemma mapM_ext {A B : Type} (f g : A -> option B) (l : list A) :
  (forall a, f a = g a) -> mapM f l = mapM g l.
Proof.
  intros H. induction l as [| a l IH]; cbn; [reflexivity |].
  now rewrite H, IH.
Qed.

Lemma filterM_total {A : Type} (f : A -> option bool) (g : A -> bool)
    (l : list A) :
  (forall a, In a l -> f a = Some (g a)) ->
  filterM f l = Some (filter g l).
Proof.
  unfold filterM, flat_mapM.
  induction l as [| a l IH]; intros H; cbn; [reflexivity |].
  rewrite (H a (or_introl eq_refl)). cbn.
  assert (IH' := IH (fun x Hx => H x (or_intror Hx))).
  destruct (mapM _ l) as [bss |]; cbn in *; [| discriminate].
  injection IH' as ->. now destruct (g a).
Qed.

Lemma mapM_map_total {A B C : Type} (f : B -> option C) (h : A -> B)
    (g : A -> C) (l : list A) :
  (forall a, f (h a) = Some (g a)) ->
  mapM f (map h l) = Some (map g l).
Proof.
  intros H. induction l as [| a l IH]; cbn; [reflexivity |].
  now rewrite H, IH.
Qed.

Lemma concat_present (l : list value) :
  List.concat (map (fun f : field => match f with
                                     | Some v => [v]
                                     | None => []
                                     end)
                   (map Some l))
  = l.
Proof.
  induction l as [| v l IH]; cbn; [reflexivity | now rewrite IH].
Qed.

Lemma filter_map_comm {A B : Type} (f : A -> B) (p : B -> bool)
    (l : list A) :
  filter p (map f l) = map f (filter (fun a => p (f a)) l).
Proof.
  induction l as [| a l IH]; cbn; [reflexivity |].
  destruct (p (f a)); cbn; now rewrite IH.
Qed.

Lemma flat_mapM_app {A B : Type} (f : A -> option (list B))
    (l1 l2 : list A) :
  flat_mapM f (l1 ++ l2)
  = (x <- flat_mapM f l1 ;; y <- flat_mapM f l2 ;; Some (x ++ y)).
Proof.
  unfold flat_mapM. rewrite mapM_app.
  destruct (mapM f l1) as [x |]; cbn; [| reflexivity].
  destruct (mapM f l2) as [y |]; cbn; [| reflexivity].
  now rewrite concat_app.
Qed.

(** ** Stages that work document by document *)

Section Locality.

Variable satisfies : value -> document -> bool.
Variable collection : string -> list document.

Local Abbreviation run_stage := (run_stage satisfies collection).
Local Abbreviation run_pipeline := (run_pipeline satisfies collection).

Lemma run_stage_app (vars : variables) (s : stage)
    (a b : list document) :
  local s = true ->
  run_stage vars s (a ++ b)
  = (x <- run_stage vars s a ;; y <- run_stage vars s b ;; Some (x ++ y)).
Proof.
  destruct s; cbn [local]; intros Hl; try discriminate; cbn.
  - now rewrite filter_app.
  - apply flat_mapM_app.
  - now rewrite map_app.
  - apply mapM_app.
  - apply mapM_app.
  - now rewrite flat_map_app.
  - apply mapM_app.
Qed.

Lemma run_pipeline_app (vars : variables) (pl : list stage)
    (a b : list document) :
  forallb local pl = true ->
  run_pipeline vars pl (a ++ b)
  = (x <- run_pipeline vars pl a ;;
     y <- run_pipeline vars pl b ;; Some (x ++ y)).
Proof.
  revert a b.
  induction pl as [| s pl IH]; intros a b Hl; cbn in *; [reflexivity |].
  apply andb_prop in Hl as [Hs Hpl].
  rewrite (run_stage_app vars s a b Hs).
  destruct (run_stage vars s a) as [x |]; cbn; [| reflexivity].
  destruct (run_stage vars s b) as [y |]; cbn.
  - apply IH, Hpl.
  - now destruct (run_pipeline vars pl x).
Qed.

Lemma run_pipeline_nil (vars : variables) (pl : list stage) :
  forallb local pl = true ->
  run_pipeline vars pl [] = Some [].
Proof.
  induction pl as [| s pl IH]; intros Hl; cbn in *; [reflexivity |].
  apply andb_prop in Hl as [Hs Hpl].
  destruct s; try discriminate; cbn; auto.
Qed.

Lemma run_pipeline_map {A : Type} (vars : variables) (pl : list stage)
    (f : A -> document) (g : A -> list document) (xs : list A) :
  forallb local pl = true ->
  (forall x, In x xs -> run_pipeline vars pl [f x] = Some (g x)) ->
  run_pipeline vars pl (map f xs) = Some (flat_map g xs).
Proof.
  intros Hl. induction xs as [| x xs IH]; intros H; cbn [map flat_map].
  - now apply run_pipeline_nil.
  - change (f x :: map f xs) with ([f x] ++ map f xs).
    rewrite run_pipeline_app by assumption.
    rewrite (H x (or_introl eq_refl)). cbn.
    rewrite IH by (intros; apply H; now right). reflexivity.
Qed.

End Locality.

(** ** The rows of one portfolio *)

Lemma get_portfolio_techStack (p : Portfolio) :
  get "techStack" (portfolio_document p) = option_map strings (techStack p).
Proof.
  unfold portfolio_document. now destruct (techStack p), (jobGroup p).
Qed.

Lemma get_portfolio_jobGroup (p : Portfolio) :
  get "jobGroup" (portfolio_document p) = option_map VOid (jobGroup p).
Proof.
  unfold portfolio_document. now destruct (techStack p), (jobGroup p).
Qed.

Lemma filter_none {A : Type} (l : list A) : filter (fun _ => false) l = [].
Proof.
  induction l; cbn; auto.
Qed.

Section Expansion.

Variable satisfies : value -> document -> bool.
Variable db : database.

Local Abbreviation run := (run_pipeline satisfies (collection_of db)).
Local Abbreviation run1 := (run_stage satisfies (collection_of db)).

Lemma likes_lookup (p : Portfolio) :
  filter (fun f => lookup_matches (get "_id" (portfolio_document p))
                                  (get "portfolioID" f))
         (collection_of db "likes")
  = map like_document (likes_of db (portfolio_id p)).
Proof.
  change (collection_of db "likes") with (map like_document (likes db)).
  rewrite filter_map_comm. unfold likes_of. f_equal.
  apply filter_ext. intros l. cbn. apply orb_false_r.
Qed.

Lemma like_stages (p : Portfolio) :
  run []
    [ Lookup "likes" "_id" "portfolioID" "likes";
      AddFields [("likeCount", ESize (EField ["likes"]))] ]
    [portfolio_document p]
  = Some [liked db p].
Proof.
  cbn [run_pipeline run_stage bind map].
  rewrite likes_lookup.
  cbn [mapM add_fields bind eval].
  rewrite get_path_field, get_set_field_same. cbn [get_path bind].
  rewrite !length_map. reflexivity.
Qed.

Lemma get_liked_techStack (p : Portfolio) :
  get "techStack" (liked db p) = option_map strings (techStack p).
Proof.
  unfold liked. rewrite !get_set_field_other by reflexivity.
  apply get_portfolio_techStack.
Qed.

Lemma unwind_techStack (p : Portfolio) :
  run [] [Unwind "techStack" true] [liked db p]
  = Some (map (skill_row db p) (skills_of p)).
Proof.
  cbn [run_pipeline run_stage flat_map bind]. rewrite app_nil_r. f_equal.
  unfold unwind, skills_of. rewrite get_liked_techStack.
  destruct (techStack p) as [[| s ss] |] eqn:E; cbn [option_map strings map].
  - reflexivity.
  - rewrite !map_map. reflexivity.
  - cbn [skill_row]. rewrite unset_absent; [reflexivity |].
    rewrite get_liked_techStack. now rewrite E.
Qed.

Lemma run_stage_lookup_pipeline (vars : variables) (from : string)
    (lets : list (string * expr)) (pl : list stage) (as_ : string)
    (input : list document) :
  run1 vars (LookupPipeline from lets pl as_) input
  = mapM (fun d =>
            bound <- mapM (fun xe : string * expr =>
                             f <- eval vars d (snd xe) ;; Some (fst xe, f))
                          lets ;;
            found <- run (bound ++ vars) pl (collection_of db from) ;;
            Some (set_field as_ (VArr (map VDoc found)) d))
         input.
Proof.
  cbn [run_stage]. apply mapM_ext. intros d.
  destruct (mapM _ lets) as [bound |]; cbn [bind]; [| reflexivity].
  generalize (collection_of db from) as ds.
  induction pl as [| s pl IH]; intros ds; [reflexivity |].
  cbn [run_pipeline].
  destruct (run_stage satisfies (collection_of db) (bound ++ vars) s ds)
    as [ds' |]; cbn [bind]; [apply IH | reflexivity].
Qed.

Lemma get_skill_row_techStack (p : Portfolio) (s : option string) :
  get "techStack" (skill_row db p s) = option_map VStr s.
Proof.
  destruct s; cbn [skill_row option_map].
  - apply get_set_field_same.
  - apply get_unset_same.
Qed.

Lemma techstacks_lookup (s : option string) :
  run [("techSkill", option_map VStr s)]
    [MatchExpr (EEq (EField ["skill"]) (EVar "techSkill"))]
    (collection_of db "techstacks")
  = Some (map techstack_document
            (match s with Some s => definitions_of db s | None => [] end)).
Proof.
  change (collection_of db "techstacks")
    with (map techstack_document (techstacks db)).
  cbn [run_pipeline run_stage].
  rewrite filterM_total
    with (g := fun d => field_eqb (get "skill" d) (option_map VStr s)).
  - cbn [bind]. rewrite filter_map_comm. f_equal. f_equal.
    destruct s as [s |]; cbn.
    + reflexivity.
    + apply filter_none.
  - intros d _. cbn [eval bind]. rewrite get_path_field.
    cbn. now destruct (get "skill" d) as [[] |].
Qed.

Lemma run_pipeline_cat (vars : variables) (pl1 pl2 : list stage)
    (ds : list document) :
  run vars (pl1 ++ pl2) ds = (ds' <- run vars pl1 ds ;; run vars pl2 ds').
Proof.
  revert ds. induction pl1 as [| s pl1 IH]; intros ds; [reflexivity |].
  cbn [app run_pipeline].
  destruct (run_stage satisfies (collection_of db) vars s ds);
    cbn [bind]; [apply IH | reflexivity].
Qed.

Lemma resolve_skill_row (p : Portfolio) (s : option string) :
  run []
    [ LookupPipeline "techstacks" [("techSkill", EField ["techStack"])]
        [MatchExpr (EEq (EField ["skill"]) (EVar "techSkill"))]
        "techStackInfo";
      Unwind "techStackInfo" true ]
    [skill_row db p s]
  = Some (map (info_row db p s) (infos_of db s)).
Proof.
  cbn [run_pipeline]. rewrite run_stage_lookup_pipeline.
  cbn [mapM bind fst snd]. rewrite eval_field, get_skill_row_techStack.
  cbn [bind app]. rewrite techstacks_lookup. cbn [bind].
  cbn [run_stage run_pipeline flat_map bind]. rewrite app_nil_r. f_equal.
  unfold unwind. rewrite get_set_field_same. fold (joined db p s).
  unfold infos_of.
  destruct s as [s |]; [destruct (definitions_of db s) as [| t ts] |];
    cbn [map]; try reflexivity.
  rewrite !map_map. reflexivity.
Qed.

Lemma expand_portfolio (p : Portfolio) :
  run [] expandStages [portfolio_document p] = Some (rows db p).
Proof.
  change expandStages
    with ([ Lookup "likes" "_id" "portfolioID" "likes";
            AddFields [("likeCount", ESize (EField ["likes"]))] ]
          ++ [Unwind "techStack" true]
          ++ [ LookupPipeline "techstacks"
                 [("techSkill", EField ["techStack"])]
                 [MatchExpr (EEq (EField ["skill"]) (EVar "techSkill"))]
                 "techStackInfo";
               Unwind "techStackInfo" true ]).
  rewrite run_pipeline_cat, like_stages. cbn [bind].
  rewrite run_pipeline_cat, unwind_techStack. cbn [bind].
  apply run_pipeline_map; [reflexivity |].
  intros s _. apply resolve_skill_row.
Qed.
End Expansion.

(** ** The collapse *)

Section Collapse.

Variable satisfies : value -> document -> bool.
Variable db : database.

Lemma get_info_row (p : Portfolio) (s : option string)
    (i : option TechStack) (k : string) :
  String.eqb k "likes" = false ->
  String.eqb k "likeCount" = false ->
  String.eqb k "techStack" = false ->
  String.eqb k "techStackInfo" = false ->
  get k (info_row db p s i) = get k (portfolio_document p).
Proof.
  intros H1 H2 H3 H4.
  destruct i, s; unfold info_row, joined, skill_row, liked;
    repeat first [ rewrite get_set_field_other by assumption
                 | rewrite get_unset_other by assumption ];
    reflexivity.
Qed.

Lemma get_info_row_likeCount (p : Portfolio) (s : option string)
    (i : option TechStack) :
  get "likeCount" (info_row db p s i)
  = Some (VNum (count_likes db (portfolio_id p))).
Proof.
  destruct i, s; unfold info_row, joined, skill_row, liked;
    repeat first [ rewrite get_set_field_other by reflexivity
                 | rewrite get_unset_other by reflexivity ];
    apply get_set_field_same.
Qed.

Lemma get_info_row_techStackInfo (p : Portfolio) (s : option string)
    (i : option TechStack) :
  get "techStackInfo" (info_row db p s i)
  = option_map (fun t => VDoc (techstack_document t)) i.
Proof.
  destruct i; cbn [info_row option_map].
  - apply get_set_field_same.
  - apply get_unset_same.
Qed.

Lemma eval_entry (vars : variables) (p : Portfolio) (s : option string)
    (i : option TechStack) :
  eval vars (info_row db p s i)
    (EObj [ ("skill", EField ["techStackInfo"; "skill"]);
            ("bgColor", EField ["techStackInfo"; "bgColor"]);
            ("textColor", EField ["techStackInfo"; "textColor"]);
            ("jobCode", EField ["techStackInfo"; "jobCode"]) ])
  = Some (Some (entry i)).
Proof.
  cbn [eval bind]. rewrite !get_path_field, get_info_row_techStackInfo.
  destruct i; reflexivity.
Qed.

Lemma rows_head (p : Portfolio) :
  exists s i rs, rows db p = info_row db p s i :: rs.
Proof.
  unfold rows, skills_of.
  assert (Hinfos : forall s, exists i rest, infos_of db s = i :: rest).
  { intros [s |]; cbn [infos_of]; [| eauto].
    destruct (definitions_of db s); cbn [map]; eauto. }
  destruct (techStack p) as [[| s ss] |]; cbn [flat_map map].
  - destruct (Hinfos None) as (i & rest & ->). cbn. eauto.
  - destruct (Hinfos (Some s)) as (i & rest & ->). cbn. eauto.
  - destruct (Hinfos None) as (i & rest & ->). cbn. eauto.
Qed.

Lemma first_rows (vars : variables) (p : Portfolio) (k : string) :
  String.eqb k "likes" = false ->
  String.eqb k "likeCount" = false ->
  String.eqb k "techStack" = false ->
  String.eqb k "techStackInfo" = false ->
  accumulate vars (First (EField [k])) (rows db p)
  = Some (or_null (get k (portfolio_document p))).
Proof.
  intros H1 H2 H3 H4. destruct (rows_head p) as (s & i & rs & ->).
  cbn [accumulate]. rewrite eval_field. cbn [bind].
  now rewrite get_info_row.
Qed.

Lemma first_rows_likeCount (vars : variables) (p : Portfolio) :
  accumulate vars (First (EField ["likeCount"])) (rows db p)
  = Some (VNum (count_likes db (portfolio_id p))).
Proof.
  destruct (rows_head p) as (s & i & rs & ->).
  cbn [accumulate]. rewrite eval_field. cbn [bind].
  now rewrite get_info_row_likeCount.
Qed.

Lemma entries_rows (vars : variables) (p : Portfolio) :
  mapM (fun d =>
          eval vars d
            (EObj [ ("skill", EField ["techStackInfo"; "skill"]);
                    ("bgColor", EField ["techStackInfo"; "bgColor"]);
                    ("textColor", EField ["techStackInfo"; "textColor"]);
                    ("jobCode", EField ["techStackInfo"; "jobCode"]) ]))
       (rows db p)
  = Some (map Some (entries db p)).
Proof.
  unfold rows, entries.
  induction (skills_of p) as [| s ss IH]; [reflexivity |].
  cbn [flat_map]. rewrite mapM_app, IH.
  rewrite mapM_map_total with (g := fun i => Some (entry i))
    by (intros i; apply eval_entry).
  cbn [bind]. now rewrite map_app, !map_map.
Qed.

Lemma push_rows (vars : variables) (p : Portfolio) :
  accumulate vars
    (Push (EObj [ ("skill", EField ["techStackInfo"; "skill"]);
                  ("bgColor", EField ["techStackInfo"; "bgColor"]);
                  ("textColor", EField ["techStackInfo"; "textColor"]);
                  ("jobCode", EField ["techStackInfo"; "jobCode"]) ]))
    (rows db p)
  = Some (VArr (entries db p)).
Proof.
  cbn [accumulate]. rewrite entries_rows. cbn [bind].
  now rewrite concat_present.
Qed.

Lemma collapse_rows (vars : variables) (p : Portfolio) :
  group_document vars collapseAccumulators (VOid (portfolio_id p), rows db p)
  = Some (collapsed db p).
Proof.
  cbn [collapseAccumulators collapseStage baseStages skipn firstn].
  unfold group_document. cbn [mapM fst snd].
  rewrite push_rows, first_rows_likeCount.
  rewrite !first_rows by reflexivity.
  cbn [bind]. rewrite get_portfolio_jobGroup.
  unfold portfolio_document.
  destruct (techStack p); reflexivity.
Qed.

Lemma add_to_group_fresh (k : value) (d : document)
    (gs : list (value * list document)) :
  Forall (fun g => value_eqb k (fst g) = false) gs ->
  add_to_group k d gs = gs ++ [(k, [d])].
Proof.
  induction 1 as [| [k' ds] gs Hk _ IH]; cbn in *; [reflexivity |].
  now rewrite Hk, IH.
Qed.

Lemma add_to_group_last (k : value) (d : document)
    (gs : list (value * list document)) (ds : list document) :
  Forall (fun g => value_eqb k (fst g) = false) gs ->
  value_eqb k k = true ->
  add_to_group k d (gs ++ [(k, ds)]) = gs ++ [(k, ds ++ [d])].
Proof.
  intros Hgs Hk.
  induction Hgs as [| [k' ds'] gs Hk' _ IH]; cbn in *.
  - now rewrite Hk.
  - now rewrite Hk', IH.
Qed.

Lemma group_by_same (vars : variables) (key : expr) (k : value)
    (block rest : list document) (gs : list (value * list document))
    (ds : list document) :
  (forall r, In r block -> eval vars r key = Some (Some k)) ->
  Forall (fun g => value_eqb k (fst g) = false) gs ->
  value_eqb k k = true ->
  group_by vars key (block ++ rest) (gs ++ [(k, ds)])
  = group_by vars key rest (gs ++ [(k, ds ++ block)]).
Proof.
  intros Hblock Hgs Hk. revert ds.
  induction block as [| r block IH]; intros ds; cbn [app group_by].
  - now rewrite app_nil_r.
  - rewrite (Hblock r (or_introl eq_refl)). cbn [bind or_null].
    rewrite add_to_group_last by assumption.
    rewrite IH by (intros; apply Hblock; now right).
    now rewrite <- app_assoc.
Qed.

Lemma group_by_block (vars : variables) (key : expr) (k : value)
    (r : document) (block rest : list document)
    (gs : list (value * list document)) :
  (forall r', In r' (r :: block) -> eval vars r' key = Some (Some k)) ->
  Forall (fun g => value_eqb k (fst g) = false) gs ->
  value_eqb k k = true ->
  group_by vars key ((r :: block) ++ rest) gs
  = group_by vars key rest (gs ++ [(k, r :: block)]).
Proof.
  intros Hblock Hgs Hk. cbn [app group_by].
  rewrite (Hblock r (or_introl eq_refl)). cbn [bind or_null].
  rewrite add_to_group_fresh by assumption.
  apply group_by_same; try assumption.
  intros; apply Hblock; now right.
Qed.

Lemma rows_key (vars : variables) (p : Portfolio) (r : document) :
  In r (rows db p) ->
  eval vars r (EField ["_id"]) = Some (Some (VOid (portfolio_id p))).
Proof.
  intros Hr. apply in_flat_map in Hr as (s & _ & Hr).
  apply in_map_iff in Hr as (i & <- & _).
  rewrite eval_field. now rewrite get_info_row.
Qed.

Lemma group_rows (vars : variables) (ps : list Portfolio)
    (gs : list (value * list document)) :
  NoDup (map portfolio_id ps) ->
  (forall p, In p ps ->
     Forall (fun g => value_eqb (VOid (portfolio_id p)) (fst g) = false) gs) ->
  group_by vars (EField ["_id"]) (flat_map (rows db) ps) gs
  = Some (gs ++ map (fun p => (VOid (portfolio_id p), rows db p)) ps).
Proof.
  revert gs. induction ps as [| p ps IH]; intros gs Hnd Hgs.
  - cbn. now rewrite app_nil_r.
  - cbn [flat_map map]. cbn [map] in Hnd.
    apply NoDup_cons_iff in Hnd as [Hp Hnd].
    destruct (rows_head p) as (s & i & rs & Hrows).
    rewrite Hrows at 1.
    rewrite group_by_block with (k := VOid (portfolio_id p)).
    + rewrite IH; [now rewrite <- app_assoc, Hrows | assumption |].
      intros p' Hp'. apply Forall_app. split.
      * apply Hgs. now right.
      * constructor; [| constructor]. cbn.
        apply N.eqb_neq. intros E. apply Hp. rewrite <- E.
        now apply in_map.
    + rewrite <- Hrows. intros r Hr. now apply rows_key.
    + apply Hgs. now left.
    + cbn. apply N.eqb_refl.
Qed.

Lemma collapse_stage (vars : variables) (ps : list Portfolio) :
  NoDup (map portfolio_id ps) ->
  run_pipeline satisfies (collection_of db) vars collapseStage
    (flat_map (rows db) ps)
  = Some (map (collapsed db) ps).
Proof.
  intros Hnd.
  change collapseStage with [Group (EField ["_id"]) collapseAccumulators].
  cbn [run_pipeline run_stage].
  rewrite group_rows by (auto; intros; constructor).
  cbn [bind app].
  rewrite mapM_map_total with (g := collapsed db)
    by (intros p; apply collapse_rows).
  reflexivity.
Qed.

(** ** Job-group resolution and projection *)

Lemma jobgroups_lookup (vars : variables) (j : option N) :
  run_pipeline satisfies (collection_of db)
    (("jobGroupId", Some (or_null (option_map VOid j))) :: vars)
    [ MatchExpr (EEq (EField ["_id"]) (EVar "jobGroupId"));
      Project [("_id", Excluded); ("job", Included)] ]
    (collection_of db "jobgroups")
  = Some (map (fun g => [("job", VStr (job g))])
            (match j with Some j => jobgroups_of db j | None => [] end)).
Proof.
  change (collection_of db "jobgroups")
    with (map jobgroup_document (jobgroups db)).
  cbn [run_pipeline run_stage].
  rewrite filterM_total
    with (g := fun d => field_eqb (get "_id" d)
                                  (Some (or_null (option_map VOid j)))).
  - cbn [bind]. rewrite filter_map_comm.
    rewrite mapM_map_total with (g := fun g => [("job", VStr (job g))])
      by reflexivity.
    destruct j as [j |]; cbn.
    + reflexivity.
    + now rewrite filter_none.
  - intros d _. cbn [eval bind]. rewrite get_path_field.
    cbn. now destruct (get "_id" d) as [[] |].
Qed.

Lemma finish_portfolio (p : Portfolio) :
  run_pipeline satisfies (collection_of db) [] finishStages [collapsed db p]
  = Some (views_of db p).
Proof.
  cbn [finishStages baseStages skipn run_pipeline].
  rewrite run_stage_lookup_pipeline.
  cbn [mapM bind fst snd]. rewrite eval_field.
  cbn [bind app collapsed get String.eqb Ascii.eqb Bool.eqb].
  rewrite jobgroups_lookup. cbn [bind].
  unfold views_of, labels_of.
  destruct (match jobGroup p with
            | Some j => jobgroups_of db j
            | None => []
            end) as [| g gs].
  - reflexivity.
  - cbn [map run_stage flat_map]. unfold unwind.
    rewrite get_set_field_same, app_nil_r. cbn [bind map mapM].
    rewrite !map_map.
    rewrite mapM_map_total
      with (g := fun g0 => view_document db p (Some (job g0)))
      by reflexivity.
    reflexivity.
Qed.

(** ** The whole pipeline *)

Lemma selected_ids (keep : Portfolio -> bool) (ps : list Portfolio) :
  NoDup (map portfolio_id ps) ->
  NoDup (map portfolio_id (filter keep ps)).
Proof.
  induction ps as [| x ps IH]; cbn; [auto |].
  intros Hnd. apply NoDup_cons_iff in Hnd as [Hx Hnd].
  destruct (keep x); cbn; [| auto].
  constructor; [| auto].
  intros Hin. apply Hx. apply in_map_iff in Hin as (y & <- & Hy).
  apply in_map. now apply filter_In in Hy.
Qed.

Lemma base_stages (q : value) :
  NoDup (map portfolio_id (portfolios db)) ->
  run_pipeline satisfies (collection_of db) [] (baseStages q)
    (collection_of db "portfolios")
  = Some (flat_map (views_of db) (selected satisfies q db)).
Proof.
  intros Hnd.
  change (baseStages q)
    with (Match q :: expandStages ++ collapseStage ++ finishStages).
  change (collection_of db "portfolios")
    with (map portfolio_document (portfolios db)).
  cbn [run_pipeline run_stage bind].
  rewrite filter_map_comm. fold (selected satisfies q db).
  rewrite run_pipeline_cat.
  rewrite run_pipeline_map with (g := rows db);
    [| reflexivity | intros; apply expand_portfolio].
  cbn [bind]. rewrite run_pipeline_cat.
  rewrite collapse_stage by now apply selected_ids.
  cbn [bind].
  apply run_pipeline_map; [reflexivity |].
  intros; apply finish_portfolio.
Qed.

Lemma views_sortable (s : string) (ps : list Portfolio) :
  sortable (sortKeys (sortStage s)) (flat_map (views_of db) ps) = true.
Proof.
  assert (H : forall k, k = "likeCount" \/ k = "createdAt" ->
                forallb (fun d => scalar (sort_key k d))
                        (flat_map (views_of db) ps) = true).
  { intros k Hk. apply forallb_forall. intros d Hd.
    apply in_flat_map in Hd as (p & _ & Hd).
    apply in_map_iff in Hd as (label & <- & _).
    destruct Hk as [-> | ->]; reflexivity. }
  destruct (sortStage_cases s) as [[_ ->] | [_ ->]]; cbn [sortKeys];
    unfold sortable, popularSort, latestSort;
    cbn [sortKeys forallb fst snd];
    rewrite !H by auto; reflexivity.
Qed.

Lemma run_pagination (vars : variables) (k l : Z) (ds : list document) :
  run_pipeline satisfies (collection_of db) vars
    (skipStage k ++ limitStage l) ds
  = Some (paginate k l ds).
Proof.
  unfold skipStage, limitStage, paginate.
  destruct (Z.ltb_spec 0 k) as [Hk | Hk], (Z.ltb_spec 0 l) as [Hl | Hl];
    cbn [app run_pipeline run_stage bind];
    repeat match goal with
           | |- context [?x <? 0] =>
               destruct (Z.ltb_spec x 0); [lia |]
           | |- context [?x <=? 0] =>
               destruct (Z.leb_spec x 0); [lia |]
           end;
    reflexivity.
Qed.

Lemma aggregate_result (m : option value) (opts : option options) :
  NoDup (map portfolio_id (portfolios db)) ->
  aggregate satisfies db m opts
  = Some (paginate (default 0 (requested_skip opts))
                   (default 15 (requested_limit opts))
            (sort_by (sortKeys (sortStage
                                  (default "latest" (requested_sort opts))))
                     (listing satisfies db m))).
Proof.
  intros Hnd. unfold aggregate. rewrite pipeline_unfold.
  rewrite run_pipeline_cat, base_stages by assumption.
  cbn [bind]. rewrite run_pipeline_cat.
  fold (default (VDoc []) m). fold (listing satisfies db m).
  fold (default "latest" (requested_sort opts)).
  fold (default 0 (requested_skip opts)).
  fold (default 15 (requested_limit opts)).
  assert (Hs := views_sortable (default "latest" (requested_sort opts))
                  (selected satisfies (default (VDoc []) m) db)).
  fold (listing satisfies db m) in Hs.
  destruct (sortStage_cases (default "latest" (requested_sort opts)))
    as [[_ E] | [_ E]]; rewrite E in *;
    unfold popularSort, latestSort in *; cbn [sortKeys] in *;
    cbn [run_pipeline run_stage]; rewrite Hs; cbn [bind];
    apply run_pagination.
Qed.

End Collapse.

(** ** Sorting *)

Lemma insert_sorted_perm (keys : list (string * Z)) (d : document)
    (l : list document) :
  Permutation (d :: l) (insert_sorted keys d l).
Proof.
  induction l as [| x l IH]; cbn; [reflexivity |].
  destruct (compare_by keys d x); try reflexivity.
  rewrite perm_swap. now apply perm_skip.
Qed.

Lemma sort_by_perm (keys : list (string * Z)) (l : list document) :
  Permutation l (sort_by keys l).
Proof.
  induction l as [| d l IH]; cbn; [reflexivity |].
  rewrite <- insert_sorted_perm. now apply perm_skip.
Qed.

Section InsertionSort.

Variable keys : list (string * Z).
Variable P : document -> Prop.
Variable R : document -> document -> Prop.

Hypothesis R_spec :
  forall a b, P a -> P b -> (compare_by keys a b <> Gt <-> R a b).
Hypothesis R_total : forall a b, P a -> P b -> R a b \/ R b a.
Hypothesis R_trans :
  forall a b c, P a -> P b -> P c -> R a b -> R b c -> R a c.

Lemma insert_sorted_sorted (d : document) (l : list document) :
  P d -> Forall P l ->
  StronglySorted R l -> StronglySorted R (insert_sorted keys d l).
Proof.
  intros Hd HP Hs. induction Hs as [| x l Hs IH Hx]; cbn.
  - repeat constructor.
  - apply Forall_cons_iff in HP as [Px Pl].
    assert (Hle : compare_by keys d x <> Gt ->
                  StronglySorted R (d :: x :: l)).
    { intros Hc. apply R_spec in Hc; try assumption.
      constructor; [now constructor |].
      constructor; [assumption |].
      rewrite Forall_forall in *. intros y Hy.
      apply R_trans with x; auto. }
    destruct (compare_by keys d x) eqn:E; try (apply Hle; discriminate).
    constructor; [now apply IH |].
    apply Permutation_Forall with (d :: l);
      [apply insert_sorted_perm |].
    constructor; [| assumption].
    destruct (R_total Px Hd) as [H | H]; [assumption |].
    apply R_spec in H; try assumption. congruence.
Qed.

Lemma sort_by_sorted (l : list document) :
  Forall P l -> StronglySorted R (sort_by keys l).
Proof.
  induction 1 as [| d l Hd Hl IH]; cbn; [constructor |].
  apply insert_sorted_sorted; try assumption.
  apply Permutation_Forall with l; [apply sort_by_perm | assumption].
Qed.

End InsertionSort.

Lemma StronglySorted_firstn {A : Type} (R : A -> A -> Prop) (n : nat)
    (l : list A) :
  StronglySorted R l -> StronglySorted R (firstn n l).
Proof.
  intros Hs. revert n. induction Hs as [| x l Hs IH Hx]; intros [| n]; cbn;
    try constructor; auto.
  rewrite Forall_forall in *. intros y Hy. apply Hx.
  rewrite <- (firstn_skipn n l). apply in_or_app. now left.
Qed.

Lemma StronglySorted_skipn {A : Type} (R : A -> A -> Prop) (n : nat)
    (l : list A) :
  StronglySorted R l -> StronglySorted R (skipn n l).
Proof.
  intros Hs. revert n. induction Hs as [| x l Hs IH Hx]; intros [| n]; cbn;
    try constructor; auto.
Qed.

Lemma paginate_sorted (R : document -> document -> Prop) (k l : Z)
    (ds : list document) :
  StronglySorted R ds -> StronglySorted R (paginate k l ds).
Proof.
  intros Hs. unfold paginate.
  destruct (0 <? k), (0 <? l);
    auto using StronglySorted_firstn, StronglySorted_skipn.
Qed.

Lemma paginate_incl (k l : Z) (ds : list document) (d : document) :
  In d (paginate k l ds) -> In d ds.
Proof.
  unfold paginate. intros H.
  assert (Hf : forall n (xs : list document), In d (firstn n xs) -> In d xs).
  { intros n xs Hd. rewrite <- (firstn_skipn n xs).
    apply in_or_app. now left. }
  assert (Hk : forall n (xs : list document), In d (skipn n xs) -> In d xs).
  { intros n xs Hd. rewrite <- (firstn_skipn n xs).
    apply in_or_app. now right. }
  destruct (0 <? k), (0 <? l); eauto.
Qed.

(** The order of the records that have a like count and a date. *)
Lemma compare_popular (a b : document) (n1 t1 n2 t2 : Z) :
  likeCount_of a = Some n1 -> createdAt_of a = Some t1 ->
  likeCount_of b = Some n2 -> createdAt_of b = Some t2 ->
  (compare_by (sortKeys popularSort) a b <> Gt
   <-> n2 < n1 \/ (n1 = n2 /\ t2 <= t1)).
Proof.
  unfold likeCount_of, createdAt_of, popularSort. cbn [sortKeys compare_by].
  unfold sort_key.
  destruct (get "likeCount" a) as [[] |]; try discriminate.
  destruct (get "createdAt" a) as [[] |]; try discriminate.
  destruct (get "likeCount" b) as [[] |]; try discriminate.
  destruct (get "createdAt" b) as [[] |]; try discriminate.
  intros [= ->] [= ->] [= ->] [= ->]. cbn.
  destruct (Z.compare_spec n1 n2), (Z.compare_spec t1 t2); cbn;
    split; intros Hgoal; try lia; try congruence; try discriminate.
Qed.

Lemma compare_latest (a b : document) (t1 t2 : Z) :
  createdAt_of a = Some t1 -> createdAt_of b = Some t2 ->
  (compare_by (sortKeys latestSort) a b <> Gt <-> t2 <= t1).
Proof.
  unfold createdAt_of, latestSort. cbn [sortKeys compare_by].
  unfold sort_key.
  destruct (get "createdAt" a) as [[] |]; try discriminate.
  destruct (get "createdAt" b) as [[] |]; try discriminate.
  intros [= ->] [= ->]. cbn.
  destruct (Z.compare_spec t1 t2); cbn;
    split; intros Hgoal; try lia; try congruence; try discriminate.
Qed.

Lemma sort_by_ordered (popular : bool) (l : list document) :
  Forall dated l ->
  StronglySorted (ordered popular)
    (sort_by (sortKeys (if popular then popularSort else latestSort)) l).
Proof.
  apply sort_by_sorted.
  - intros a b (n1 & t1 & Hn1 & Ht1) (n2 & t2 & Hn2 & Ht2).
    unfold ordered. destruct popular.
    + rewrite (compare_popular a b Hn1 Ht1 Hn2 Ht2).
      split; [intros H; now exists n1, t1, n2, t2 |].
      intros (m1 & u1 & m2 & u2 & E1 & E2 & E3 & E4 & H). congruence.
    + rewrite (compare_latest a b Ht1 Ht2).
      split; [intros H; now exists n1, t1, n2, t2 |].
      intros (m1 & u1 & m2 & u2 & E1 & E2 & E3 & E4 & H). congruence.
  - intros a b (n1 & t1 & Hn1 & Ht1) (n2 & t2 & Hn2 & Ht2).
    assert (Hc : (if popular then n2 < n1 \/ (n1 = n2 /\ t2 <= t1)
                  else t2 <= t1)
                 \/ (if popular then n1 < n2 \/ (n2 = n1 /\ t1 <= t2)
                     else t1 <= t2))
      by (destruct popular; lia).
    destruct Hc as [Hc | Hc];
      [left; exists n1, t1, n2, t2 | right; exists n2, t2, n1, t1];
      auto 10.
  - intros a b c _ _ _ (n1 & t1 & n2 & t2 & A1 & A2 & B1 & B2 & Hab)
      (m2 & u2 & n3 & t3 & B1' & B2' & C1 & C2 & Hbc).
    rewrite B1 in B1'. rewrite B2 in B2'.
    injection B1' as <-. injection B2' as <-.
    exists n1, t1, n3, t3. repeat split; auto.
    destruct popular; lia.
Qed.

(** ** The rows of a listing *)

Lemma view_dated (db : database) (p : Portfolio) (label : option string) :
  dated (view_document db p label).
Proof.
  exists (count_likes db (portfolio_id p)), (createdAt p).
  split; reflexivity.
Qed.

Lemma is_view_of_view (db : database) (p : Portfolio)
    (label : option string) (id : N) :
  is_view_of id (view_document db p label) = N.eqb (portfolio_id p) id.
Proof.
  reflexivity.
Qed.

Lemma portfolio_by_id (ps : list Portfolio) (p p' : Portfolio) :
  NoDup (map portfolio_id ps) ->
  In p ps -> In p' ps -> portfolio_id p = portfolio_id p' -> p = p'.
Proof.
  induction ps as [| x ps IH]; cbn; [tauto |].
  intros Hnd. apply NoDup_cons_iff in Hnd as [Hx Hnd].
  intros [-> | Hp] [-> | Hp'] E; auto.
  - exfalso. apply Hx. rewrite E. now apply in_map.
  - exfalso. apply Hx. rewrite <- E. now apply in_map.
Qed.

Lemma filter_unique_key {A : Type} (f : A -> N) (k : N) (l : list A) :
  NoDup (map f l) ->
  (List.length (filter (fun x => N.eqb (f x) k) l) <= 1)%nat.
Proof.
  induction l as [| x l IH]; cbn; [lia |].
  intros Hnd. apply NoDup_cons_iff in Hnd as [Hx Hnd].
  destruct (N.eqb_spec (f x) k) as [E | _]; [| auto].
  cbn. rewrite (proj2 (length_zero_iff_nil _)); [lia |].
  destruct (filter _ l) as [| y ys] eqn:Ef; [reflexivity |].
  exfalso. apply Hx.
  assert (Hy : In y (filter (fun x => N.eqb (f x) k) l))
    by (rewrite Ef; now left).
  apply filter_In in Hy as [Hy Hk]. apply N.eqb_eq in Hk.
  rewrite E, <- Hk. now apply in_map.
Qed.

Lemma filter_nothing {A : Type} (f : A -> bool) (l : list A) :
  (forall x, In x l -> f x = false) -> filter f l = [].
Proof.
  induction l as [| x l IH]; intros H; cbn; [reflexivity |].
  rewrite (H x (or_introl eq_refl)). apply IH. intros; apply H; now right.
Qed.

Section Listing.

Variable satisfies : value -> document -> bool.
Variable db : database.

Lemma listing_rows (m : option value) (r : document) :
  In r (listing satisfies db m) ->
  exists p label,
    In p (portfolios db)
    /\ satisfies (default (VDoc []) m) (portfolio_document p) = true
    /\ In label (labels_of db p)
    /\ r = view_document db p label.
Proof.
  unfold listing, selected. intros Hr.
  apply in_flat_map in Hr as (p & Hp & Hr).
  apply filter_In in Hp as [Hp Hsat].
  apply in_map_iff in Hr as (label & <- & Hl).
  now exists p, label.
Qed.

Lemma labels_singleton (p : Portfolio) :
  NoDup (map jobgroup_id (jobgroups db)) ->
  labels_of db p = [label_of db p].
Proof.
  intros Hnd. unfold label_of, labels_of.
  destruct (jobGroup p) as [j |]; [| reflexivity].
  pose proof (filter_unique_key jobgroup_id j (jobgroups db) Hnd) as Hlen.
  fold (jobgroups_of db j) in Hlen.
  destruct (jobgroups_of db j) as [| g [| g' gs]]; cbn in *;
    try reflexivity; lia.
Qed.

Lemma listing_map (m : option value) :
  NoDup (map jobgroup_id (jobgroups db)) ->
  listing satisfies db m
  = map (fun p => view_document db p (label_of db p))
        (selected satisfies (default (VDoc []) m) db).
Proof.
  intros Hnd. unfold listing.
  induction (selected satisfies (default (VDoc []) m) db) as [| p ps IH];
    cbn [flat_map map]; [reflexivity |].
  unfold views_of at 1. rewrite labels_singleton by assumption.
  cbn [map app]. now rewrite IH.
Qed.

Lemma listing_views_of (m : option value) (p : Portfolio) :
  NoDup (map portfolio_id (portfolios db)) ->
  NoDup (map jobgroup_id (jobgroups db)) ->
  In p (portfolios db) ->
  satisfies (default (VDoc []) m) (portfolio_document p) = true ->
  filter (is_view_of (portfolio_id p)) (listing satisfies db m)
  = [view_document db p (label_of db p)].
Proof.
  intros Hnd Hjg Hp Hsat. rewrite listing_map by assumption.
  assert (Hsel : In p (selected satisfies (default (VDoc []) m) db))
    by (apply filter_In; auto).
  assert (Hnd' : NoDup (map portfolio_id
                          (selected satisfies (default (VDoc []) m) db)))
    by now apply selected_ids.
  induction (selected satisfies (default (VDoc []) m) db) as [| x ps IH];
    [destruct Hsel |].
  cbn [map filter] in *. rewrite is_view_of_view.
  apply NoDup_cons_iff in Hnd' as [Hx Hnd'].
  destruct Hsel as [-> | Hsel].
  - rewrite N.eqb_refl. f_equal.
    apply filter_nothing. intros r Hr.
    apply in_map_iff in Hr as (y & <- & Hy). rewrite is_view_of_view.
    apply N.eqb_neq. intros E. apply Hx. rewrite <- E.
    now apply in_map.
  - destruct (N.eqb_spec (portfolio_id x) (portfolio_id p)) as [E | _].
    + exfalso. apply Hx. rewrite E. now apply in_map.
    + now apply IH.
Qed.

Lemma listing_dated (m : option value) :
  Forall dated (listing satisfies db m).
Proof.
  apply Forall_forall. intros r Hr.
  apply listing_rows in Hr as (p & label & _ & _ & _ & ->).
  apply view_dated.
Qed.

Lemma sortStage_popular (opts : option options) :
  sortStage (default "latest" (requested_sort opts))
  = if is_popular opts then popularSort else latestSort.
Proof.
  unfold is_popular, sortStage.
  destruct (requested_sort opts) as [s |]; cbn [default]; [| reflexivity].
  now destruct (String.eqb s "popular").
Qed.

Lemma aggregate_sound (m : option value) (opts : option options) :
  NoDup (map portfolio_id (portfolios db)) ->
  exists out,
    aggregate satisfies db m opts = Some out
    /\ (forall r, In r out -> In r (listing satisfies db m))
    /\ StronglySorted (ordered (is_popular opts)) out.
Proof.
  intros Hnd. eexists. split; [now apply aggregate_result |]. split.
  - intros r Hr. apply paginate_incl in Hr.
    eapply Permutation_in; [symmetry; apply sort_by_perm | exact Hr].
  - apply paginate_sorted. rewrite sortStage_popular.
    apply sort_by_ordered, listing_dated.
Qed.

Lemma paginate_covered (opts : option options) (ds : list document) :
  page_covers opts db ->
  (List.length ds <= List.length (portfolios db))%nat ->
  paginate (default 0 (requested_skip opts))
           (default 15 (requested_limit opts)) ds
  = ds.
Proof.
  intros [Hk Hl] Hlen. unfold paginate.
  destruct (Z.ltb_spec 0 (default 0 (requested_skip opts))); [lia |].
  destruct (Z.ltb_spec 0 (default 15 (requested_limit opts)));
    [| reflexivity].
  apply firstn_all2. lia.
Qed.

Lemma filter_part {A : Type} (f : A -> bool) (a : A) (l1 l2 : list A) :
  filter f (l1 ++ l2) = [] \/ filter f (l1 ++ l2) = [a] ->
  (filter f l1 = [] \/ filter f l1 = [a])
  /\ (filter f l2 = [] \/ filter f l2 = [a]).
Proof.
  rewrite filter_app. intros [H | H].
  - apply app_eq_nil in H as [-> ->]. auto.
  - apply app_eq_unit in H as [[-> ->] | [-> ->]]; auto.
Qed.

Lemma paginate_filter (f : document -> bool) (a : document) (k l : Z)
    (ds : list document) :
  filter f ds = [] \/ filter f ds = [a] ->
  filter f (paginate k l ds) = [] \/ filter f (paginate k l ds) = [a].
Proof.
  intros H. unfold paginate.
  assert (Hk : forall n xs,
             filter f xs = [] \/ filter f xs = [a] ->
             filter f (skipn n xs) = [] \/ filter f (skipn n xs) = [a]).
  { intros n xs Hxs. rewrite <- (firstn_skipn n xs) in Hxs.
    now apply filter_part in Hxs. }
  assert (Hf : forall n xs,
             filter f xs = [] \/ filter f xs = [a] ->
             filter f (firstn n xs) = [] \/ filter f (firstn n xs) = [a]).
  { intros n xs Hxs. rewrite <- (firstn_skipn n xs) in Hxs.
    now apply filter_part in Hxs. }
  destruct (0 <? k), (0 <? l); auto.
Qed.

Lemma views_permuted (id : N) (ds ds' : list document) :
  Permutation ds ds' ->
  Permutation (filter (is_view_of id) ds) (filter (is_view_of id) ds').
Proof.
  induction 1 as [| x l l' _ IH | x y l | l l' l'' _ IH1 _ IH2]; cbn.
  - constructor.
  - destruct (is_view_of id x); [now constructor | assumption].
  - destruct (is_view_of id x), (is_view_of id y); try reflexivity.
    apply perm_swap.
  - now transitivity (filter (is_view_of id) l').
Qed.

Lemma aggregate_views (m : option value) (opts : option options)
    (p : Portfolio) :
  NoDup (map portfolio_id (portfolios db)) ->
  NoDup (map jobgroup_id (jobgroups db)) ->
  In p (portfolios db) ->
  satisfies (default (VDoc []) m) (portfolio_document p) = true ->
  exists out,
    aggregate satisfies db m opts = Some out
    /\ (filter (is_view_of (portfolio_id p)) out = []
        \/ filter (is_view_of (portfolio_id p)) out
           = [view_document db p (label_of db p)])
    /\ (page_covers opts db ->
        filter (is_view_of (portfolio_id p)) out
        = [view_document db p (label_of db p)]).
Proof.
  intros Hnd Hjg Hp Hsat.
  pose proof (@listing_views_of m p Hnd Hjg Hp Hsat) as Hone.
  assert (Hsorted :
            forall keys,
              filter (is_view_of (portfolio_id p))
                     (sort_by keys (listing satisfies db m))
              = [view_document db p (label_of db p)]).
  { intros keys. apply Permutation_length_1_inv. rewrite <- Hone.
    apply views_permuted, sort_by_perm. }
  eexists. split; [now apply aggregate_result |]. split.
  - apply paginate_filter. right. apply Hsorted.
  - intros Hpage. rewrite paginate_covered; [apply Hsorted | assumption |].
    rewrite <- (Permutation_length (sort_by_perm _ _)).
    rewrite listing_map, length_map by assumption.
    apply filter_length_le.
Qed.

End Listing.

(** ** The view records *)

Example listing_of_store :
  aggregate everything store None
    (Some (mkOptions (Some "popular") (Some 1) (Some 1)))
  = Some [ [ ("_id", VOid 3);
             ("title", VStr "Notes");
             ("contents", VStr "Plain notes");
             ("view", VNum 0);
             ("images", VArr []);
             ("tags", VArr []);
             ("techStack", VArr [VDoc []]);
             ("createdAt", VDate 50);
             ("thumbnailImage", VStr "c-thumb.png");
             ("userID", VStr "user-2");
             ("likeCount", VNum 1) ] ].
Proof.
  reflexivity.
Qed.

Lemma entries_cases (db : database) (p : Portfolio) :
  entries db p
  = match techStack p with
    | None | Some [] => [VDoc []]
    | Some skills =>
        flat_map (fun s => match definitions_of db s with
                           | [] => [VDoc []]
                           | ts => map (fun t => entry (Some t)) ts
                           end)
                 skills
    end.
Proof.
  unfold entries, skills_of.
  destruct (techStack p) as [[| s ss] |]; try reflexivity.
  generalize (s :: ss) as skills. intros skills.
  induction skills as [| x xs IH]; cbn [map flat_map]; [reflexivity |].
  rewrite IH. f_equal. cbn [infos_of].
  destruct (definitions_of db x); cbn [map]; [reflexivity |].
  now rewrite map_map.
Qed.

Lemma view_of_row (satisfies : value -> document -> bool) (db : database)
    (m : option value) (r : document) (p : Portfolio) :
  NoDup (map portfolio_id (portfolios db)) ->
  In r (listing satisfies db m) ->
  In p (portfolios db) ->
  get "_id" r = Some (VOid (portfolio_id p)) ->
  exists label, In label (labels_of db p) /\ r = view_document db p label.
Proof.
  intros Hnd Hr Hp Hid.
  apply listing_rows in Hr as (p' & label & Hp' & _ & Hl & ->).
  cbn in Hid. injection Hid as Hid.
  assert (p' = p) as -> by (eapply portfolio_by_id; eauto).
  now exists label.
Qed.

(** C3: the like aggregation comes before the tech-stack expansion, and
    the like count of every record of the listing is the number of Like
    records that refer to its portfolio, a number and never null or absent
    (0 when no Like refers to it), whatever the tech stack of the portfolio
    is. *)
Theorem likeCount_exact (satisfies : value -> document -> bool)
    (db : database) (m : option value) (opts : option options) :
  map step (firstn 4 (createPortfolioPipeline m opts)) = [1; 2; 2; 3]%nat
  /\ (NoDup (map portfolio_id (portfolios db)) ->
      exists out,
        aggregate satisfies db m opts = Some out
        /\ (forall r, In r out ->
              exists p, In p (portfolios db)
                        /\ get "_id" r = Some (VOid (portfolio_id p)))
        /\ (forall r p,
              In r out -> In p (portfolios db) ->
              get "_id" r = Some (VOid (portfolio_id p)) ->
              get "likeCount" r
              = Some (VNum (Z.of_nat
                              (List.length
                                 (filter (fun l => N.eqb (portfolioID l)
                                                         (portfolio_id p))
                                         (likes db))))))).
Proof.
  split; [rewrite pipeline_unfold; reflexivity |].
  intros Hnd.
  destruct (@aggregate_sound satisfies db m opts Hnd) as (out & Hout & Hin & _).
  exists out. split; [assumption |]. split.
  - intros r Hr. apply Hin, listing_rows in Hr
      as (p & label & Hp & _ & _ & ->).
    now exists p.
  - intros r p Hr Hp Hid.
    destruct (@view_of_row satisfies db m r p Hnd (Hin r Hr) Hp Hid)
      as (label & _ & ->).
    reflexivity.
Qed.

Lemma likeCount_exact_witness :
  exists out r,
    aggregate everything store None None = Some out
    /\ In r out
    /\ get "_id" r = Some (VOid (portfolio_id portfolioA))
    /\ get "likeCount" r = Some (VNum 2).
Proof.
  destruct (proj2 (@likeCount_exact everything store None None)
              ltac:(distinct_ids))
    as (out & Hout & _ & Hcount).
  exists out, (view_document store portfolioA (Some "Backend")).
  assert (Hin : In (view_document store portfolioA (Some "Backend")) out).
  { vm_compute in Hout. injection Hout as <-. cbn. auto. }
  split; [exact Hout |]. split; [exact Hin |]. split; [reflexivity |].
  exact (Hcount _ portfolioA Hin (or_introl eq_refl) eq_refl).
Defined.

(** C1: a portfolio with the skills ["go"] and ["rust"], of which only
    ["go"] has a definition, has exactly one record in a listing whose page
    holds every portfolio (and never more than one in any page), and the
    tech stack of that record has two entries in the order of the skills:
    the first with the skill, colours and job code of the definition, the
    second without any of these fields. *)
Theorem collapse_go_rust (satisfies : value -> document -> bool)
    (db : database) (m : option value) (opts : option options)
    (p : Portfolio) (t : TechStack) :
  NoDup (map portfolio_id (portfolios db)) ->
  NoDup (map jobgroup_id (jobgroups db)) ->
  In p (portfolios db) ->
  satisfies (default (VDoc []) m) (portfolio_document p) = true ->
  techStack p = Some ["go"; "rust"] ->
  definitions_of db "go" = [t] ->
  definitions_of db "rust" = [] ->
  exists out r,
    aggregate satisfies db m opts = Some out
    /\ get "techStack" r
       = Some (VArr [ VDoc [ ("skill", VStr (skill t));
                             ("bgColor", VStr (bgColor t));
                             ("textColor", VStr (textColor t));
                             ("jobCode", VStr (jobCode t)) ];
                      VDoc [] ])
    /\ (filter (is_view_of (portfolio_id p)) out = []
        \/ filter (is_view_of (portfolio_id p)) out = [r])
    /\ (page_covers opts db ->
        filter (is_view_of (portfolio_id p)) out = [r]).
Proof.
  intros Hnd Hjg Hp Hsat Hskills Hgo Hrust.
  destruct (@aggregate_views satisfies db m opts p Hnd Hjg Hp Hsat)
    as (out & Hout & Hmost & Hone).
  exists out, (view_document db p (label_of db p)).
  repeat split; try assumption.
  change (get "techStack" (view_document db p (label_of db p)))
    with (Some (VArr (entries db p))).
  rewrite entries_cases, Hskills. cbn [flat_map].
  now rewrite Hgo, Hrust.
Qed.

Lemma collapse_go_rust_witness :
  exists out r,
    aggregate everything store None None = Some out
    /\ get "techStack" r
       = Some (VArr [ VDoc [ ("skill", VStr "go");
                             ("bgColor", VStr "#00ADD8");
                             ("textColor", VStr "#FFFFFF");
                             ("jobCode", VStr "backend") ];
                      VDoc [] ])
    /\ filter (is_view_of 1) out = [r].
Proof.
  destruct (@collapse_go_rust everything store None None portfolioA
              goDefinition
              ltac:(distinct_ids) ltac:(distinct_ids) ltac:(cbn; auto)
              eq_refl eq_refl eq_refl eq_refl)
    as (out & r & Hout & Hstack & _ & Hone).
  exists out, r.
  split; [exact Hout |]. split; [exact Hstack |].
  apply Hone. unfold page_covers. cbn. lia.
Defined.

(** C9: a portfolio whose skill sequence is empty or absent has, in every
    record of it, a tech stack of one entry, and that entry has none of
    the fields [skill], [bgColor], [textColor] and [jobCode]. *)
Theorem empty_techStack_entry (satisfies : value -> document -> bool)
    (db : database) (m : option value) (opts : option options) :
  NoDup (map portfolio_id (portfolios db)) ->
  exists out,
    aggregate satisfies db m opts = Some out
    /\ forall r p,
         In r out -> In p (portfolios db) ->
         get "_id" r = Some (VOid (portfolio_id p)) ->
         techStack p = None \/ techStack p = Some [] ->
         get "techStack" r = Some (VArr [VDoc []]).
Proof.
  intros Hnd.
  destruct (@aggregate_sound satisfies db m opts Hnd) as (out & Hout & Hin & _).
  exists out. split; [assumption |].
  intros r p Hr Hp Hid Hempty.
  destruct (@view_of_row satisfies db m r p Hnd (Hin r Hr) Hp Hid)
    as (label & _ & ->).
  change (get "techStack" (view_document db p label))
    with (Some (VArr (entries db p))).
  rewrite entries_cases. now destruct Hempty as [-> | ->].
Qed.

Lemma empty_techStack_entry_witness :
  exists out r,
    aggregate everything store None None = Some out
    /\ In r out
    /\ get "_id" r = Some (VOid (portfolio_id portfolioB))
    /\ get "techStack" r = Some (VArr [VDoc []]).
Proof.
  destruct (@empty_techStack_entry everything store None None
              ltac:(distinct_ids))
    as (out & Hout & Hempty).
  exists out, (view_document store portfolioB None).
  assert (Hin : In (view_document store portfolioB None) out).
  { vm_compute in Hout. injection Hout as <-. cbn. auto. }
  split; [exact Hout |]. split; [exact Hin |]. split; [reflexivity |].
  exact (Hempty _ portfolioB Hin (or_intror (or_introl eq_refl)) eq_refl
           (or_intror eq_refl)).
Defined.

(** C2, as the description of the view record has it, fails: the reference
    ["rust"] of the first portfolio of the store matches no definition and
    still contributes an entry, so that the tech stack has two entries where
    one reference matched. *)
Lemma unmatched_reference_entry :
  exists out r,
    aggregate everything store None None = Some out
    /\ In r out
    /\ In portfolioA (portfolios store)
    /\ get "_id" r = Some (VOid (portfolio_id portfolioA))
    /\ matched_entries store portfolioA = [entry (Some goDefinition)]
    /\ get "techStack" r = Some (VArr [entry (Some goDefinition); VDoc []])
    /\ get "techStack" r <> Some (VArr (matched_entries store portfolioA)).
Proof.
  eexists. exists (view_document store portfolioA (Some "Backend")).
  split; [vm_compute; reflexivity |].
  split; [cbn; auto |].
  split; [cbn; auto |].
  repeat split; try reflexivity.
  vm_compute. discriminate.
Qed.

(** C2, amended: the tech stack of every record holds, for each skill of
    the portfolio in order, one entry for each definition that the skill
    matches, and one entry without fields for a skill that matches none; a
    portfolio without skills has one entry without fields. *)
Theorem techStack_entries (satisfies : value -> document -> bool)
    (db : database) (m : option value) (opts : option options) :
  NoDup (map portfolio_id (portfolios db)) ->
  exists out,
    aggregate satisfies db m opts = Some out
    /\ forall r p,
         In r out -> In p (portfolios db) ->
         get "_id" r = Some (VOid (portfolio_id p)) ->
         get "techStack" r
         = Some (VArr
                   match techStack p with
                   | None | Some [] => [VDoc []]
                   | Some skills =>
                       flat_map
                         (fun s => match definitions_of db s with
                                   | [] => [VDoc []]
                                   | ts => map (fun t => entry (Some t)) ts
                                   end)
                         skills
                   end).
Proof.
  intros Hnd.
  destruct (@aggregate_sound satisfies db m opts Hnd) as (out & Hout & Hin & _).
  exists out. split; [assumption |].
  intros r p Hr Hp Hid.
  destruct (@view_of_row satisfies db m r p Hnd (Hin r Hr) Hp Hid)
    as (label & _ & ->).
  rewrite <- entries_cases. reflexivity.
Qed.

Lemma techStack_entries_witness :
  exists out r,
    aggregate everything store None None = Some out
    /\ In r out
    /\ get "_id" r = Some (VOid (portfolio_id portfolioA))
    /\ get "techStack" r = Some (VArr [entry (Some goDefinition); VDoc []]).
Proof.
  destruct (@techStack_entries everything store None None
              ltac:(distinct_ids))
    as (out & Hout & Hentries).
  exists out, (view_document store portfolioA (Some "Backend")).
  assert (Hin : In (view_document store portfolioA (Some "Backend")) out).
  { vm_compute in Hout. injection Hout as <-. cbn. auto. }
  split; [exact Hout |]. split; [exact Hin |]. split; [reflexivity |].
  exact (Hentries _ portfolioA Hin (or_introl eq_refl) eq_refl).
Defined.

(** ** Outer expansions *)

Lemma pipeline_outer (m : option value) (opts : option options) :
  forallb is_outer (createPortfolioPipeline m opts) = true.
Proof.
  rewrite pipeline_unfold. rewrite !forallb_app.
  unfold skipStage, limitStage.
  destruct (sortStage_cases
              (match requested_sort opts with
               | Some s => s
               | None => "latest"
               end)) as [[_ ->] | [_ ->]];
    destruct (0 <? _), (0 <? _); reflexivity.
Qed.

Lemma get_view_jobGroup (db : database) (p : Portfolio)
    (label : option string) :
  get "jobGroup" (view_document db p label) = option_map VStr label.
Proof.
  destruct label; reflexivity.
Qed.

Lemma label_of_cases (db : database) (p : Portfolio) :
  label_of db p
  = match jobGroup p with
    | None => None
    | Some j => option_map job (hd_error (jobgroups_of db j))
    end.
Proof.
  unfold label_of, labels_of.
  destruct (jobGroup p) as [j |]; [| reflexivity].
  now destruct (jobgroups_of db j).
Qed.

Lemma expansion_prefix (satisfies : value -> document -> bool)
    (db : database) (m : option value) (opts : option options)
    (p : Portfolio) :
  satisfies (default (VDoc []) m) (portfolio_document p) = true ->
  run_pipeline satisfies (collection_of db) []
    (firstn 4 (createPortfolioPipeline m opts)) [portfolio_document p]
  = Some (map (skill_row db p) (skills_of p))
  /\ run_pipeline satisfies (collection_of db) []
       (firstn 6 (createPortfolioPipeline m opts)) [portfolio_document p]
     = Some (rows db p).
Proof.
  intros Hsat. rewrite pipeline_unfold. fold (default (VDoc []) m).
  split.
  - change (firstn 4 _)
      with ([Match (default (VDoc []) m)]
            ++ [ Lookup "likes" "_id" "portfolioID" "likes";
                 AddFields [("likeCount", ESize (EField ["likes"]))] ]
            ++ [Unwind "techStack" true]).
    rewrite run_pipeline_cat. cbn [run_pipeline run_stage filter bind].
    rewrite Hsat. cbn [bind].
    rewrite run_pipeline_cat, like_stages. cbn [bind].
    apply unwind_techStack.
  - change (firstn 6 _) with ([Match (default (VDoc []) m)] ++ expandStages).
    rewrite run_pipeline_cat. cbn [run_pipeline run_stage filter bind].
    rewrite Hsat. cbn [bind].
    apply expand_portfolio.
Qed.

Lemma views_of_portfolio (db : database) (p x : Portfolio) :
  filter (is_view_of (portfolio_id p)) (views_of db x)
  = if N.eqb (portfolio_id x) (portfolio_id p) then views_of db x else [].
Proof.
  unfold views_of.
  induction (labels_of db x) as [| label labels IH]; cbn [map filter].
  - now destruct (N.eqb (portfolio_id x) (portfolio_id p)).
  - rewrite is_view_of_view, IH.
    now destruct (N.eqb (portfolio_id x) (portfolio_id p)).
Qed.

Lemma listing_of_portfolio (satisfies : value -> document -> bool)
    (db : database) (m : option value) (p : Portfolio) :
  NoDup (map portfolio_id (portfolios db)) ->
  In p (portfolios db) ->
  satisfies (default (VDoc []) m) (portfolio_document p) = true ->
  filter (is_view_of (portfolio_id p)) (listing satisfies db m)
  = views_of db p.
Proof.
  intros Hnd Hp Hsat. unfold listing.
  assert (Hsel : In p (selected satisfies (default (VDoc []) m) db))
    by (apply filter_In; auto).
  assert (Hnd' : NoDup (map portfolio_id
                          (selected satisfies (default (VDoc []) m) db)))
    by now apply selected_ids.
  induction (selected satisfies (default (VDoc []) m) db) as [| x ps IH];
    [destruct Hsel |].
  cbn [flat_map map] in *. rewrite filter_app, views_of_portfolio.
  apply NoDup_cons_iff in Hnd' as [Hx Hnd'].
  destruct Hsel as [-> | Hsel].
  - rewrite N.eqb_refl. rewrite <- app_nil_r. f_equal.
    apply filter_nothing. intros r Hr.
    apply in_flat_map in Hr as (y & Hy & Hr).
    apply in_map_iff in Hr as (label & <- & _). rewrite is_view_of_view.
    apply N.eqb_neq. intros E. apply Hx. rewrite <- E.
    now apply in_map.
  - destruct (N.eqb_spec (portfolio_id x) (portfolio_id p)) as [E | _].
    + exfalso. apply Hx. rewrite E. now apply in_map.
    + now apply IH.
Qed.

Lemma labels_of_cases (db : database) (p : Portfolio) :
  (jobGroup p = None
   \/ (exists j, jobGroup p = Some j /\ jobgroups_of db j = []) ->
   labels_of db p = [None])
  /\ (forall j g,
        jobGroup p = Some j -> jobgroups_of db j = [g] ->
        labels_of db p = [Some (job g)]).
Proof.
  unfold labels_of. split.
  - intros [-> | (j & -> & ->)]; reflexivity.
  - intros j g -> ->. reflexivity.
Qed.

Lemma record_of_portfolio (satisfies : value -> document -> bool)
    (db : database) (m : option value) (opts : option options)
    (p : Portfolio) (out : list document) (r : document) :
  NoDup (map portfolio_id (portfolios db)) ->
  In p (portfolios db) ->
  aggregate satisfies db m opts = Some out ->
  In r out -> is_view_of (portfolio_id p) r = true ->
  exists label, In label (labels_of db p) /\ r = view_document db p label.
Proof.
  intros Hnd Hp Hout Hr Hid.
  destruct (@aggregate_sound satisfies db m opts Hnd)
    as (out' & Hout' & Hsound & _).
  rewrite Hout in Hout'. injection Hout' as <-.
  apply Hsound, listing_rows in Hr
    as (p' & label & Hp' & _ & Hlabel & ->).
  rewrite is_view_of_view in Hid. apply N.eqb_eq in Hid.
  rewrite (@portfolio_by_id (portfolios db) p' p Hnd Hp' Hp Hid) in *.
  now exists label.
Qed.

(** C7: every expansion stage of the pipeline keeps the rows whose array is
    empty or missing.  A portfolio without skills leaves the tech-stack
    expansion as one row without a skill, and a skill that matches no
    definition leaves the resolution expansion as a row without a
    definition.  A portfolio leaves the job-group expansion and the
    projection, the first ten stages, as one record whether or not its
    job group resolves: without the [jobGroup] field when the reference
    matches no job group, and with the label of the job group, and nothing
    else of it, when it matches one; every record that the output of the
    pipeline has for the portfolio is that record; and the output has it,
    exactly once, when the page holds the whole listing. *)
Theorem outer_expansions (satisfies : value -> document -> bool)
    (db : database) (m : option value) (opts : option options) :
  forallb is_outer (createPortfolioPipeline m opts) = true
  /\ forall p : Portfolio,
       satisfies (default (VDoc []) m) (portfolio_document p) = true ->
       (techStack p = None \/ techStack p = Some [] ->
        exists row,
          run_pipeline satisfies (collection_of db) []
            (firstn 4 (createPortfolioPipeline m opts))
            [portfolio_document p]
          = Some [row]
          /\ get "techStack" row = None)
       /\ (forall skills s,
             techStack p = Some skills -> In s skills ->
             definitions_of db s = [] ->
             exists rows row,
               run_pipeline satisfies (collection_of db) []
                 (firstn 6 (createPortfolioPipeline m opts))
                 [portfolio_document p]
               = Some rows
               /\ In row rows
               /\ get "techStack" row = Some (VStr s)
               /\ get "techStackInfo" row = None)
       /\ (In p (portfolios db) ->
           NoDup (map portfolio_id (portfolios db)) ->
           exists records out,
             run_pipeline satisfies (collection_of db) []
               (firstn 10 (createPortfolioPipeline m opts))
               (collection_of db "portfolios")
             = Some records
             /\ aggregate satisfies db m opts = Some out
             /\ (jobGroup p = None
                 \/ (exists j, jobGroup p = Some j
                                /\ jobgroups_of db j = []) ->
                 (exists r,
                     filter (is_view_of (portfolio_id p)) records = [r]
                     /\ get "jobGroup" r = None)
                 /\ (forall r,
                       In r out -> is_view_of (portfolio_id p) r = true ->
                       get "jobGroup" r = None))
             /\ (forall j g,
                   jobGroup p = Some j -> jobgroups_of db j = [g] ->
                   (exists r,
                       filter (is_view_of (portfolio_id p)) records = [r]
                       /\ get "jobGroup" r = Some (VStr (job g)))
                   /\ (forall r,
                         In r out -> is_view_of (portfolio_id p) r = true ->
                         get "jobGroup" r = Some (VStr (job g))))
             /\ (NoDup (map jobgroup_id (jobgroups db)) ->
                 page_covers opts db ->
                 exists r,
                   filter (is_view_of (portfolio_id p)) out = [r]
                   /\ (jobGroup p = None
                       \/ (exists j, jobGroup p = Some j
                                      /\ jobgroups_of db j = []) ->
                       get "jobGroup" r = None)
                   /\ (forall j g,
                         jobGroup p = Some j -> jobgroups_of db j = [g] ->
                         get "jobGroup" r = Some (VStr (job g))))).
Proof.
  split; [apply pipeline_outer |]. intros p Hsat.
  destruct (@expansion_prefix satisfies db m opts p Hsat) as [Hfour Hsix].
  split; [| split].
  - intros Hempty. exists (skill_row db p None). split.
    + rewrite Hfour. unfold skills_of. now destruct Hempty as [-> | ->].
    + apply (get_skill_row_techStack db p None).
  - intros skills s Hskills Hs Hnone.
    exists (rows db p), (info_row db p (Some s) None).
    split; [assumption |]. split; [| split].
    + unfold rows. apply in_flat_map. exists (Some s). split.
      * unfold skills_of. rewrite Hskills.
        destruct skills as [| x xs]; [destruct Hs |]. now apply in_map.
      * cbn [infos_of]. rewrite Hnone. now left.
    + unfold info_row, joined.
      rewrite get_unset_other, get_set_field_other by reflexivity.
      apply (get_skill_row_techStack db p (Some s)).
    + apply (get_info_row_techStackInfo db p (Some s) None).
  - intros Hp Hnd.
    destruct (labels_of_cases db p) as [Hnone Hsome].
    pose proof (@listing_of_portfolio satisfies db m p Hnd Hp Hsat) as Hlist.
    unfold views_of in Hlist.
    destruct (@aggregate_sound satisfies db m opts Hnd)
      as (out & Hout & _ & _).
    exists (listing satisfies db m), out.
    split.
    { rewrite pipeline_unfold. fold (default (VDoc []) m).
      change (firstn 10 _) with (baseStages (default (VDoc []) m)).
      now apply base_stages. }
    split; [exact Hout |]. split; [| split].
    + intros Hcase. specialize (Hnone Hcase). split.
      * rewrite Hlist, Hnone. eexists. split; [reflexivity |].
        apply get_view_jobGroup.
      * intros r Hr Hid.
        destruct (@record_of_portfolio satisfies db m opts p out r
                    Hnd Hp Hout Hr Hid) as (label & Hlabel & ->).
        rewrite Hnone in Hlabel. destruct Hlabel as [<- | []].
        apply get_view_jobGroup.
    + intros j g Hj Hg. specialize (Hsome j g Hj Hg). split.
      * rewrite Hlist, Hsome. eexists. split; [reflexivity |].
        apply get_view_jobGroup.
      * intros r Hr Hid.
        destruct (@record_of_portfolio satisfies db m opts p out r
                    Hnd Hp Hout Hr Hid) as (label & Hlabel & ->).
        rewrite Hsome in Hlabel. destruct Hlabel as [<- | []].
        apply get_view_jobGroup.
    + intros Hjg Hpage.
      destruct (@aggregate_views satisfies db m opts p Hnd Hjg Hp Hsat)
        as (out' & Hout' & _ & Hone).
      rewrite Hout in Hout'. injection Hout' as <-.
      exists (view_document db p (label_of db p)).
      split; [now apply Hone |].
      rewrite get_view_jobGroup, label_of_cases. split.
      * intros [-> | (j & -> & ->)]; reflexivity.
      * intros j g -> ->. reflexivity.
Qed.

Lemma outer_expansions_witness :
  (exists row records out r r',
     run_pipeline everything (collection_of store) []
       (firstn 4 (createPortfolioPipeline None None))
       [portfolio_document portfolioB]
     = Some [row]
     /\ get "techStack" row = None
     /\ run_pipeline everything (collection_of store) []
          (firstn 10 (createPortfolioPipeline None None))
          (collection_of store "portfolios")
        = Some records
     /\ filter (is_view_of (portfolio_id portfolioB)) records = [r]
     /\ get "jobGroup" r = None
     /\ aggregate everything store None None = Some out
     /\ filter (is_view_of (portfolio_id portfolioB)) out = [r']
     /\ get "jobGroup" r' = None)
  /\ (exists rows row records out r r',
        run_pipeline everything (collection_of store) []
          (firstn 6 (createPortfolioPipeline None None))
          [portfolio_document portfolioA]
        = Some rows
        /\ In row rows
        /\ get "techStack" row = Some (VStr "rust")
        /\ get "techStackInfo" row = None
        /\ run_pipeline everything (collection_of store) []
             (firstn 10 (createPortfolioPipeline None None))
             (collection_of store "portfolios")
           = Some records
        /\ filter (is_view_of (portfolio_id portfolioA)) records = [r]
        /\ get "jobGroup" r = Some (VStr "Backend")
        /\ aggregate everything store None None = Some out
        /\ filter (is_view_of (portfolio_id portfolioA)) out = [r']
        /\ get "jobGroup" r' = Some (VStr "Backend")).
Proof.
  assert (Hpage : page_covers None store) by (unfold page_covers; cbn; lia).
  split.
  - destruct (proj2 (@outer_expansions everything store None None)
                portfolioB eq_refl)
      as (Hempty & _ & Hlisted).
    destruct Hempty as (row & Hrow & Hstack); [now right |].
    destruct (Hlisted ltac:(cbn; auto) ltac:(distinct_ids))
      as (records & out & Hrecords & Hout & Hnone & _ & Hcover).
    destruct Hnone as [(r & Hr & Hfield) _];
      [right; exists 9%N; split; reflexivity |].
    destruct (Hcover ltac:(distinct_ids) Hpage) as (r' & Hr' & Hfield' & _).
    exists row, records, out, r, r'.
    split; [exact Hrow |]. split; [exact Hstack |].
    split; [exact Hrecords |]. split; [exact Hr |].
    split; [exact Hfield |]. split; [exact Hout |]. split; [exact Hr' |].
    apply Hfield'. right. exists 9%N. split; reflexivity.
  - destruct (proj2 (@outer_expansions everything store None None)
                portfolioA eq_refl)
      as (_ & Hskill & Hlisted).
    destruct (Hskill ["go"; "rust"] "rust" eq_refl
                ltac:(cbn; auto) eq_refl)
      as (rows & row & Hrows & Hin & Hstack & Hinfo).
    destruct (Hlisted ltac:(cbn; auto) ltac:(distinct_ids))
      as (records & out & Hrecords & Hout & _ & Hsome & Hcover).
    destruct (Hsome _ _ eq_refl eq_refl) as [(r & Hr & Hfield) _].
    destruct (Hcover ltac:(distinct_ids) Hpage) as (r' & Hr' & _ & Hfield').
    exists rows, row, records, out, r, r'.
    split; [exact Hrows |]. split; [exact Hin |]. split; [exact Hstack |].
    split; [exact Hinfo |]. split; [exact Hrecords |]. split; [exact Hr |].
    split; [exact Hfield |]. split; [exact Hout |]. split; [exact Hr' |].
    exact (Hfield' _ _ eq_refl eq_refl).
Defined.

(** C4: the sort stage is the eleventh stage of the pipeline, after the
    collapse and the projection, and no other stage sorts.  With
    [sort = "popular"] it sorts by [likeCount] descending and then by
    [createdAt] descending, and of two records of the listing the one with
    more likes comes first and, with as many likes, the one that is not
    older; with any other choice it sorts by [createdAt] descending, and
    the record that is not older comes first. *)
Theorem sort_stage_order (m : option value) (opts : option options) :
  nth_error (createPortfolioPipeline m opts) 10
  = Some (if is_popular opts then popularSort else latestSort)
  /\ index_of is_group (createPortfolioPipeline m opts) = Some 6%nat
  /\ index_of is_project (createPortfolioPipeline m opts) = Some 9%nat
  /\ index_of is_sort (createPortfolioPipeline m opts) = Some 10%nat
  /\ List.length (filter is_sort (createPortfolioPipeline m opts)) = 1%nat
  /\ forall (satisfies : value -> document -> bool) (db : database),
       NoDup (map portfolio_id (portfolios db)) ->
       exists out,
         aggregate satisfies db m opts = Some out
         /\ StronglySorted (ordered (is_popular opts)) out.
Proof.
  split; [| split; [| split; [| split; [| split]]]].
  - rewrite pipeline_sort_position. f_equal. apply sortStage_popular.
  - rewrite pipeline_unfold. reflexivity.
  - rewrite pipeline_unfold. reflexivity.
  - rewrite pipeline_unfold.
    destruct (sortStage_cases
                (match requested_sort opts with
                 | Some s => s
                 | None => "latest"
                 end)) as [[_ ->] | [_ ->]]; reflexivity.
  - rewrite pipeline_unfold. unfold skipStage, limitStage.
    destruct (sortStage_cases
                (match requested_sort opts with
                 | Some s => s
                 | None => "latest"
                 end)) as [[_ ->] | [_ ->]];
      destruct (0 <? _), (0 <? _); reflexivity.
  - intros satisfies db Hnd.
    destruct (@aggregate_sound satisfies db m opts Hnd)
      as (out & Hout & _ & Hsorted).
    now exists out.
Qed.

Lemma sort_stage_order_witness :
  exists out,
    aggregate everything store None
      (Some (mkOptions (Some "popular") None None))
    = Some out
    /\ StronglySorted
         (ordered (is_popular (Some (mkOptions (Some "popular") None None))))
         out.
Proof.
  apply (proj2 (proj2 (proj2 (proj2 (proj2
           (sort_stage_order None
              (Some (mkOptions (Some "popular") None None)))))))).
  distinct_ids.
Defined.

(** * Further properties of the two functions *)

(** ** Pagination metadata at and beyond its contract *)

(** X12: for integers below [2^53] in magnitude and a positive limit,
    [hasNextPage] tells exactly whether records remain after the page: it
    is true if and only if [page * limit < totalCount]. *)
Theorem hasNextPage_remaining (totalCount page limit : Z) :
  - 2 ^ 53 < totalCount < 2 ^ 53 -> - 2 ^ 53 < page < 2 ^ 53 ->
  0 < limit < 2 ^ 53 ->
  (Meta.hasNextPage
     (createPaginationMetadata (ofZ totalCount) (ofZ page) (ofZ limit))
   = true
   <-> page * limit < totalCount).
Proof.
  intros Hc Hp Hl. unfold createPaginationMetadata. cbn [Meta.hasNextPage].
  rewrite lessThan_ceil_divide by lia.
  pose proof (@ceiling_bounds totalCount limit ltac:(lia)) as Hbounds.
  rewrite Z.ltb_lt. split; intros H; nia.
Qed.

Lemma hasNextPage_remaining_witness :
  Meta.hasNextPage (createPaginationMetadata (ofZ 31) (ofZ 2) (ofZ 15))
  = true
  <-> 2 * 15 < 31.
Proof.
  apply (@hasNextPage_remaining 31 2 15); lia.
Defined.



Lemma lessThan_nonneg (z : Z) (y : number) :
  0 <= z ->
  match y with
  | S754_zero _ | S754_finite true _ _ => True
  | _ => False
  end ->
  lessThan (ofZ z) y = false.
Proof.
  intros Hz Hy. destruct z as [| p | p]; [| | lia].
  - destruct y as [| | | [] ? ?]; try contradiction; reflexivity.
  - unfold ofZ. cbn [binary_normalize]. unfold binary_round.
    destruct (shl_align p 0 (fexp 53 1024 (Zpos (digits2_pos p) + 0)))
      as [mz ez].
    unfold binary_round_aux.
    destruct (shr_fexp 53 1024 (Zpos mz) ez loc_Exact) as [mrs e1].
    destruct (shr_fexp 53 1024
                (round_nearest_even (shr_m mrs) (loc_of_shr_record mrs))
                e1 loc_Exact) as [mrs2 e2].
    destruct (shr_m mrs2); [| destruct (e2 <=? 1024 - 53) |];
      destruct y as [| | | [] ? ?]; try contradiction; reflexivity.
Qed.

(** X14: a negative limit is not rejected either: for integers below
    [2^53] in magnitude and a count that is not negative, the number of
    pages is an integer that is at most 0 (the ceiling of the quotient, -0
    included), so that no page from 0 on has a next page. *)
Theorem negative_limit_metadata (totalCount page limit : Z) :
  - 2 ^ 53 < limit < 0 -> 0 <= totalCount < 2 ^ 53 ->
  exists pages,
    toZ (Meta.totalPages
           (createPaginationMetadata (ofZ totalCount) (ofZ page)
                                     (ofZ limit)))
    = Some pages
    /\ pages = - (- totalCount / limit)
    /\ pages <= 0
    /\ (0 <= page ->
        Meta.hasNextPage
          (createPaginationMetadata (ofZ totalCount) (ofZ page)
                                    (ofZ limit))
        = false).
Proof.
  intros Hl Hc. unfold createPaginationMetadata.
  cbn [Meta.totalPages Meta.hasNextPage].
  exists (- (- totalCount / limit)).
  assert (Hq : 0 <= - totalCount / limit).
  { pose proof (Z.div_mod (- totalCount) limit ltac:(lia)) as Hdm.
    pose proof (Z.mod_neg_bound (- totalCount) limit ltac:(lia)) as Hr.
    nia. }
  split; [apply toZ_ceil_divide; lia |].
  split; [reflexivity |]. split; [lia |].
  intros Hp. apply lessThan_nonneg; [exact Hp |].
  rewrite ceil_divide by lia.
  destruct ((- (- totalCount / limit) =? 0)
            && xorb (totalCount <? 0) (limit <? 0)); [exact I |].
  destruct (- (- totalCount / limit)) as [| c | c] eqn:E; [exact I | lia |].
  assert (Hcb : Zpos c < 2 ^ 53).
  { pose proof (Z.div_mod (- totalCount) limit ltac:(lia)) as Hdm.
    pose proof (Z.mod_neg_bound (- totalCount) limit ltac:(lia)) as Hr.
    nia. }
  rewrite ofZ_neg by exact Hcb. exact I.
Qed.

Lemma negative_limit_metadata_witness :
  exists pages,
    toZ (Meta.totalPages
           (createPaginationMetadata (ofZ 100) (ofZ 1) (ofZ (-15))))
    = Some pages
    /\ pages = - (- 100 / -15)
    /\ pages <= 0
    /\ (0 <= 1 ->
        Meta.hasNextPage
          (createPaginationMetadata (ofZ 100) (ofZ 1) (ofZ (-15)))
        = false).
Proof.
  apply (@negative_limit_metadata 100 1 (-15)); lia.
Defined.

(** ** Pages of a listing *)

Lemma paginate_none (k l : Z) (ds : list document) :
  k <= 0 -> l <= 0 -> paginate k l ds = ds.
Proof.
  intros Hk Hl. unfold paginate.
  destruct (Z.ltb_spec 0 k); [lia |].
  destruct (Z.ltb_spec 0 l); [lia | reflexivity].
Qed.

Lemma paginate_length (k l : Z) (ds : list document) :
  0 < l -> Z.of_nat (List.length (paginate k l ds)) <= l.
Proof.
  intros Hl. unfold paginate.
  destruct (Z.ltb_spec 0 l); [| lia].
  rewrite length_firstn. lia.
Qed.

Lemma pagination_stage_positive (k l n : Z) :
  (In (Skip n) (skipStage k ++ limitStage l) -> 0 < n)
  /\ (In (Limit n) (skipStage k ++ limitStage l) -> 0 < n).
Proof.
  unfold skipStage, limitStage.
  destruct (Z.ltb_spec 0 k) as [Hk | Hk], (Z.ltb_spec 0 l) as [Hl | Hl];
    cbn; split; intros Hin; intuition (try discriminate);
    match goal with
    | E : Skip _ = Skip _ |- _ => injection E as <-
    | E : Limit _ = Limit _ |- _ => injection E as <-
    end; assumption.
Qed.

(** X1: whatever the options are, a skip or limit stage of the pipeline
    carries the value that was requested (15 for a limit that is not
    given) and that value is positive: a zero or negative [skip] or [limit]
    is dropped and never handed to the store. *)
Theorem pagination_arguments (m : option value) (opts : option options) :
  (forall n, In (Skip n) (createPortfolioPipeline m opts) ->
             requested_skip opts = Some n /\ 0 < n)
  /\ (forall n, In (Limit n) (createPortfolioPipeline m opts) ->
                default 15 (requested_limit opts) = n /\ 0 < n).
Proof.
  assert (Hfixed : forall s,
             In s (firstn 11 (createPortfolioPipeline m opts)) ->
             is_pagination s = false).
  { intros s Hs. rewrite pipeline_unfold in Hs.
    destruct (sortStage_cases
                (match requested_sort opts with
                 | Some s => s
                 | None => "latest"
                 end)) as [[_ E] | [_ E]];
      rewrite E in Hs; cbn in Hs;
      repeat (destruct Hs as [<- | Hs]; [reflexivity |]); destruct Hs. }
  assert (Hsplit : forall s,
             In s (createPortfolioPipeline m opts) ->
             is_pagination s = false
             \/ In s (skipStage (default 0 (requested_skip opts))
                      ++ limitStage (default 15 (requested_limit opts)))).
  { intros s Hs.
    rewrite <- (firstn_skipn 11 (createPortfolioPipeline m opts)) in Hs.
    apply in_app_or in Hs as [Hs | Hs]; [left; now apply Hfixed |].
    right. rewrite pipeline_unfold in Hs. exact Hs. }
  split.
  - intros n Hn. destruct (Hsplit _ Hn) as [H | H]; [discriminate |].
    pose proof (proj1 (pagination_stage_positive _ _ n) H) as Hpos.
    split; [| exact Hpos].
    unfold skipStage, limitStage in H.
    destruct (requested_skip opts) as [k |]; cbn [default] in H.
    + destruct (0 <? k), (0 <? default 15 (requested_limit opts));
        cbn in H; intuition congruence.
    + destruct (0 <? default 15 (requested_limit opts));
        cbn in H; intuition congruence.
  - intros n Hn. destruct (Hsplit _ Hn) as [H | H]; [discriminate |].
    pose proof (proj2 (pagination_stage_positive _ _ n) H) as Hpos.
    split; [| exact Hpos].
    unfold skipStage, limitStage in H.
    destruct (0 <? default 0 (requested_skip opts)),
             (0 <? default 15 (requested_limit opts));
      cbn in H; intuition congruence.
Qed.

Lemma pagination_arguments_witness :
  requested_skip (withOptions None (Some 3) (Some (-1))) = Some 3 /\ 0 < 3.
Proof.
  apply (proj1 (@pagination_arguments
                  None (withOptions None (Some 3) (Some (-1)))) 3).
  cbn. auto 20.
Defined.

(** X2: within one execution, the skip and limit stages cut a slice out of
    what the sort stage hands them, whatever that is: the first [skip]
    records are dropped when [skip > 0], and then the first [limit] records
    are kept when [limit > 0] (15 when no limit is given).  The result of
    the pipeline is that slice of the result of its first eleven stages. *)
Theorem page_is_slice (satisfies : value -> document -> bool)
    (db : database) (m : option value) (s : option string)
    (k l : option Z) :
  let slice (sorted : list document) :=
    let skipped :=
      match k with
      | Some k => if 0 <? k then skipn (Z.to_nat k) sorted else sorted
      | None => sorted
      end in
    match l with
    | Some l => if 0 <? l then firstn (Z.to_nat l) skipped else skipped
    | None => firstn 15 skipped
    end in
  (forall sorted,
      run_pipeline satisfies (collection_of db) []
        (skipn 11 (createPortfolioPipeline m (withOptions s k l))) sorted
      = Some (slice sorted))
  /\ (NoDup (map portfolio_id (portfolios db)) ->
      exists sorted,
        run_pipeline satisfies (collection_of db) []
          (firstn 11 (createPortfolioPipeline m (withOptions s k l)))
          (collection_of db "portfolios")
        = Some sorted
        /\ aggregate satisfies db m (withOptions s k l)
           = Some (slice sorted)).
Proof.
  intros slice.
  assert (Htail : forall sorted,
             run_pipeline satisfies (collection_of db) []
               (skipn 11 (createPortfolioPipeline m (withOptions s k l)))
               sorted
             = Some (slice sorted)).
  { intros sorted. rewrite pipeline_unfold.
    change (skipn 11 _)
      with (skipStage (default 0 k) ++ limitStage (default 15 l)).
    rewrite run_pagination. unfold paginate, slice.
    destruct k as [k |], l as [l |]; reflexivity. }
  split; [exact Htail |].
  intros Hnd.
  assert (Hhead : firstn 11 (createPortfolioPipeline m (withOptions s k l))
                  = createPortfolioPipeline
                      m (withOptions s (Some 0) (Some 0))).
  { rewrite !pipeline_unfold. cbn [withOptions requested_sort requested_skip
      requested_limit sort skip limit skipStage limitStage Z.ltb Z.compare].
    rewrite app_nil_r.
    destruct (sortStage_cases
                (match s with Some s => s | None => "latest" end))
      as [[_ ->] | [_ ->]]; reflexivity. }
  pose proof (@aggregate_result satisfies db m
                (withOptions s (Some 0) (Some 0)) Hnd) as Hfull.
  unfold aggregate in Hfull. rewrite <- Hhead in Hfull.
  eexists. split; [exact Hfull |].
  unfold aggregate.
  rewrite <- (firstn_skipn 11 (createPortfolioPipeline m (withOptions s k l))).
  rewrite run_pipeline_cat, Hfull. cbn [bind]. apply Htail.
Qed.

Lemma page_is_slice_witness :
  exists sorted,
    run_pipeline everything (collection_of store) []
      (firstn 11 (createPortfolioPipeline
                    None (withOptions None (Some 1) (Some 1))))
      (collection_of store "portfolios")
    = Some sorted
    /\ aggregate everything store None (withOptions None (Some 1) (Some 1))
       = Some (firstn 1 (skipn 1 sorted)).
Proof.
  apply (proj2 (@page_is_slice everything store None None (Some 1) (Some 1))).
  distinct_ids.
Defined.

(** X3: a listing never has more records than the limit, when the limit is
    positive, and never more than 15 when no limit is given. *)
Theorem page_size (satisfies : value -> document -> bool)
    (db : database) (m : option value) (opts : option options) :
  NoDup (map portfolio_id (portfolios db)) ->
  exists out,
    aggregate satisfies db m opts = Some out
    /\ (forall l, requested_limit opts = Some l -> 0 < l ->
          Z.of_nat (List.length out) <= l)
    /\ (requested_limit opts = None -> (List.length out <= 15)%nat).
Proof.
  intros Hnd. eexists. split; [now apply aggregate_result |]. split.
  - intros l -> Hl. now apply paginate_length.
  - intros ->. cbn [default].
    pose proof (paginate_length (default 0 (requested_skip opts))
                  (sort_by (sortKeys (sortStage
                                        (default "latest"
                                                 (requested_sort opts))))
                           (listing satisfies db m))
                  (l := 15) ltac:(lia)).
    lia.
Qed.

Lemma page_size_witness :
  exists out,
    aggregate everything store None (withOptions None None (Some 2))
    = Some out
    /\ Z.of_nat (List.length out) <= 2.
Proof.
  destruct (@page_size everything store None
              (withOptions None None (Some 2)) ltac:(distinct_ids))
    as (out & Hout & Hlimit & _).
  exists out. split; [exact Hout |].
  apply (Hlimit 2 eq_refl). lia.
Defined.

(** X11: in a query without skip and without limit, the sort option
    changes the order of the records and nothing else: the results for two
    values of [sort] are permutations of each other. *)
Theorem sort_only_reorders (satisfies : value -> document -> bool)
    (db : database) (m : option value) (s1 s2 : option string)
    (k l : Z) :
  NoDup (map portfolio_id (portfolios db)) ->
  k <= 0 -> l <= 0 ->
  exists out1 out2,
    aggregate satisfies db m (withOptions s1 (Some k) (Some l)) = Some out1
    /\ aggregate satisfies db m (withOptions s2 (Some k) (Some l))
       = Some out2
    /\ Permutation out1 out2.
Proof.
  intros Hnd Hk Hl. do 2 eexists.
  split; [now apply aggregate_result |].
  split; [now apply aggregate_result |].
  cbn [withOptions requested_skip requested_limit skip limit default].
  rewrite !paginate_none by assumption.
  rewrite <- !sort_by_perm. reflexivity.
Qed.

Lemma sort_only_reorders_witness :
  exists out1 out2,
    aggregate everything store None
      (withOptions (Some "popular") (Some 0) (Some 0))
    = Some out1
    /\ aggregate everything store None
         (withOptions (Some "latest") (Some 0) (Some 0))
       = Some out2
    /\ Permutation out1 out2.
Proof.
  apply (@sort_only_reorders everything store None (Some "popular")
           (Some "latest") 0 0); [distinct_ids | lia | lia].
Defined.

(** ** Which portfolios a listing shows *)

Lemma listing_ids (satisfies : value -> document -> bool) (db : database)
    (m : option value) :
  NoDup (map jobgroup_id (jobgroups db)) ->
  map (get "_id") (listing satisfies db m)
  = map (fun p => Some (VOid (portfolio_id p)))
        (selected satisfies (default (VDoc []) m) db).
Proof.
  intros Hjg. rewrite (@listing_map satisfies db m Hjg), map_map.
  reflexivity.
Qed.

Lemma selected_ids_distinct (satisfies : value -> document -> bool)
    (db : database) (q : value) :
  NoDup (map portfolio_id (portfolios db)) ->
  NoDup (map (fun p => Some (VOid (portfolio_id p)))
             (selected satisfies q db)).
Proof.
  intros Hnd. apply (selected_ids (fun p => satisfies q (portfolio_document p)))
    in Hnd.
  fold (selected satisfies q db) in Hnd.
  induction (selected satisfies q db) as [| p ps IH]; cbn in *;
    [constructor |].
  apply NoDup_cons_iff in Hnd as [Hp Hnd]. constructor; [| auto].
  intros Hin. apply Hp. apply in_map_iff in Hin as (p' & E & Hp').
  injection E as E. rewrite <- E. now apply in_map.
Qed.

Lemma paginate_distinct {A : Type} (f : document -> A) (k l : Z)
    (ds : list document) :
  NoDup (map f ds) -> NoDup (map f (paginate k l ds)).
Proof.
  unfold paginate.
  assert (Hk : forall n xs, NoDup (map f xs) -> NoDup (map f (skipn n xs))).
  { intros n xs H. rewrite <- (firstn_skipn n xs), map_app in H.
    now apply NoDup_app_remove_l in H. }
  assert (Hf : forall n xs, NoDup (map f xs) -> NoDup (map f (firstn n xs))).
  { intros n xs H. rewrite <- (firstn_skipn n xs), map_app in H.
    now apply NoDup_app_remove_r in H. }
  destruct (0 <? k), (0 <? l); auto.
Qed.

Lemma aggregate_covering (satisfies : value -> document -> bool)
    (db : database) (m : option value) (opts : option options) :
  NoDup (map portfolio_id (portfolios db)) ->
  NoDup (map jobgroup_id (jobgroups db)) ->
  page_covers opts db ->
  exists out,
    aggregate satisfies db m opts = Some out
    /\ Permutation (listing satisfies db m) out.
Proof.
  intros Hnd Hjg Hpage. eexists. split; [now apply aggregate_result |].
  rewrite (@paginate_covered db opts _ Hpage); [apply sort_by_perm |].
  rewrite <- (Permutation_length (sort_by_perm _ _)).
  rewrite (@listing_map satisfies db m Hjg), length_map.
  apply filter_length_le.
Qed.

(** X4: when the page holds the whole listing, the listing has one record
    for each portfolio that passes the filter and no other record: the
    identifiers of its records are those of the passing portfolios, each
    once. *)
Theorem one_record_each (satisfies : value -> document -> bool)
    (db : database) (m : option value) (opts : option options) :
  NoDup (map portfolio_id (portfolios db)) ->
  NoDup (map jobgroup_id (jobgroups db)) ->
  page_covers opts db ->
  exists out,
    aggregate satisfies db m opts = Some out
    /\ Permutation
         (map (get "_id") out)
         (map (fun p => Some (VOid (portfolio_id p)))
              (filter (fun p => satisfies
                                  (match m with Some q => q | None => VDoc [] end)
                                  (portfolio_document p))
                      (portfolios db))).
Proof.
  intros Hnd Hjg Hpage.
  destruct (@aggregate_covering satisfies db m opts Hnd Hjg Hpage)
    as (out & Hout & Hperm).
  exists out. split; [assumption |].
  rewrite <- Hperm, (@listing_ids satisfies db m Hjg). reflexivity.
Qed.

Lemma one_record_each_witness :
  exists out,
    aggregate everything store None None = Some out
    /\ Permutation (map (get "_id") out)
                   [Some (VOid 1); Some (VOid 2); Some (VOid 3)].
Proof.
  apply (@one_record_each everything store None None);
    [distinct_ids | distinct_ids | unfold page_covers; cbn; lia].
Defined.

(** X5: in any page, no two records have the same identifier, every record
    is the record of a portfolio that passes the filter, and a portfolio
    that does not pass the filter has no record. *)
Theorem no_stray_records (satisfies : value -> document -> bool)
    (db : database) (m : option value) (opts : option options) :
  NoDup (map portfolio_id (portfolios db)) ->
  NoDup (map jobgroup_id (jobgroups db)) ->
  exists out,
    aggregate satisfies db m opts = Some out
    /\ NoDup (map (get "_id") out)
    /\ (forall r, In r out ->
          exists p,
            In p (portfolios db)
            /\ satisfies (match m with Some q => q | None => VDoc [] end)
                         (portfolio_document p) = true
            /\ get "_id" r = Some (VOid (portfolio_id p)))
    /\ (forall p,
          In p (portfolios db) ->
          satisfies (match m with Some q => q | None => VDoc [] end)
                    (portfolio_document p) = false ->
          filter (is_view_of (portfolio_id p)) out = []).
Proof.
  intros Hnd Hjg.
  assert (Hrows : forall r,
             In r (paginate (default 0 (requested_skip opts))
                            (default 15 (requested_limit opts))
                     (sort_by (sortKeys
                                 (sortStage
                                    (default "latest" (requested_sort opts))))
                              (listing satisfies db m))) ->
             exists p label,
               In p (portfolios db)
               /\ satisfies (default (VDoc []) m) (portfolio_document p)
                  = true
               /\ r = view_document db p label).
  { intros r Hr. apply paginate_incl in Hr.
    apply (Permutation_in _ (Permutation_sym (sort_by_perm _ _))) in Hr.
    apply listing_rows in Hr as (p & label & Hp & Hsat & _ & ->).
    now exists p, label. }
  eexists. split; [now apply aggregate_result |]. split; [| split].
  - apply paginate_distinct.
    apply (Permutation_NoDup (Permutation_map _ (sort_by_perm _ _))).
    rewrite (@listing_ids satisfies db m Hjg).
    now apply selected_ids_distinct.
  - intros r Hr. apply Hrows in Hr as (p & label & Hp & Hsat & ->).
    now exists p.
  - intros p Hp Hsat. apply filter_nothing. intros r Hr.
    apply Hrows in Hr as (p' & label & Hp' & Hsat' & ->).
    rewrite is_view_of_view. apply N.eqb_neq. intros E.
    assert (p' = p) as -> by (eapply portfolio_by_id; eauto).
    fold (default (VDoc []) m) in Hsat. congruence.
Qed.

Lemma no_stray_records_witness :
  exists out,
    aggregate equalityFilter store (Some byFirstUser) None = Some out
    /\ NoDup (map (get "_id") out)
    /\ filter (is_view_of (portfolio_id portfolioC)) out = [].
Proof.
  destruct (@no_stray_records equalityFilter store (Some byFirstUser) None
              ltac:(distinct_ids) ltac:(distinct_ids))
    as (out & Hout & Hdistinct & _ & Hnone).
  exists out. split; [exact Hout |]. split; [exact Hdistinct |].
  exact (Hnone portfolioC (or_intror (or_intror (or_introl eq_refl)))
           eq_refl).
Defined.

(** ** The fields of the records *)

Lemma get_key (k : string) (d : document) :
  get k d <> None -> In k (map fst d).
Proof.
  induction d as [| [k' v] d IH]; cbn; [congruence |].
  destruct (String.eqb_spec k k') as [-> | _]; auto.
Qed.

(** X6: the collapse loses nothing of a portfolio: in every record the
    title, contents, view count, images, tags, creation date, thumbnail
    and owner are those of the portfolio of the record. *)
Theorem scalar_fields_kept (satisfies : value -> document -> bool)
    (db : database) (m : option value) (opts : option options) :
  NoDup (map portfolio_id (portfolios db)) ->
  exists out,
    aggregate satisfies db m opts = Some out
    /\ forall r p,
         In r out -> In p (portfolios db) ->
         get "_id" r = Some (VOid (portfolio_id p)) ->
         get "title" r = Some (VStr (title p))
         /\ get "contents" r = Some (VStr (contents p))
         /\ get "view" r = Some (VNum (view p))
         /\ get "images" r = Some (VArr (map VStr (images p)))
         /\ get "tags" r = Some (VArr (map VStr (tags p)))
         /\ get "createdAt" r = Some (VDate (createdAt p))
         /\ get "thumbnailImage" r = Some (VStr (thumbnailImage p))
         /\ get "userID" r = Some (VStr (userID p)).
Proof.
  intros Hnd.
  destruct (@aggregate_sound satisfies db m opts Hnd) as (out & Hout & Hin & _).
  exists out. split; [assumption |].
  intros r p Hr Hp Hid.
  destruct (@view_of_row satisfies db m r p Hnd (Hin r Hr) Hp Hid)
    as (label & _ & ->).
  repeat split.
Qed.

Lemma scalar_fields_kept_witness :
  exists out r,
    aggregate everything store None None = Some out
    /\ In r out
    /\ get "title" r = Some (VStr "Compiler")
    /\ get "createdAt" r = Some (VDate 100).
Proof.
  destruct (@scalar_fields_kept everything store None None
              ltac:(distinct_ids))
    as (out & Hout & Hkept).
  exists out, (view_document store portfolioA (Some "Backend")).
  assert (Hin : In (view_document store portfolioA (Some "Backend")) out).
  { vm_compute in Hout. injection Hout as <-. cbn. auto. }
  split; [exact Hout |]. split; [exact Hin |].
  destruct (Hkept _ portfolioA Hin (or_introl eq_refl) eq_refl)
    as (Htitle & _ & _ & _ & _ & Hdate & _).
  split; [exact Htitle | exact Hdate].
Defined.

(** X7: every record has the eleven fields [_id], [title], [contents],
    [view], [images], [tags], [techStack], [createdAt], [thumbnailImage],
    [userID] and [likeCount], and no field besides them but [jobGroup]; the
    fields [likes], [techStackInfo] and [jobGroupInfo] that the joins add
    never reach the result. *)
Theorem record_fields (satisfies : value -> document -> bool)
    (db : database) (m : option value) (opts : option options) :
  NoDup (map portfolio_id (portfolios db)) ->
  exists out,
    aggregate satisfies db m opts = Some out
    /\ forall r,
         In r out ->
         (forall k, In k viewFields -> get k r <> None)
         /\ (forall k, get k r <> None -> In k (viewFields ++ ["jobGroup"]))
         /\ get "likes" r = None
         /\ get "techStackInfo" r = None
         /\ get "jobGroupInfo" r = None.
Proof.
  intros Hnd.
  destruct (@aggregate_sound satisfies db m opts Hnd) as (out & Hout & Hin & _).
  exists out. split; [assumption |].
  intros r Hr. apply Hin, listing_rows in Hr as (p & label & _ & _ & _ & ->).
  split; [| split; [| destruct label; repeat split]].
  - intros k Hk. cbn in Hk.
    repeat (destruct Hk as [<- | Hk]; [discriminate |]). destruct Hk.
  - intros k Hk. apply get_key in Hk.
    destruct label; cbn in Hk |- *; tauto.
Qed.

Lemma record_fields_witness :
  exists out,
    aggregate everything store None None = Some out
    /\ forall r,
         In r out ->
         (forall k, In k viewFields -> get k r <> None)
         /\ (forall k, get k r <> None -> In k (viewFields ++ ["jobGroup"]))
         /\ get "likes" r = None
         /\ get "techStackInfo" r = None
         /\ get "jobGroupInfo" r = None.
Proof.
  apply (@record_fields everything store None None). distinct_ids.
Defined.

(** ** The tech stack of a record *)

Lemma definitions_unique (db : database) (s : string) :
  NoDup (map skill (techstacks db)) ->
  definitions_of db s
  = match find (fun t => String.eqb (skill t) s) (techstacks db) with
    | Some t => [t]
    | None => []
    end.
Proof.
  unfold definitions_of.
  induction (techstacks db) as [| t ts IH]; cbn; [reflexivity |].
  intros Hnd. apply NoDup_cons_iff in Hnd as [Ht Hnd].
  destruct (String.eqb_spec (skill t) s) as [E | _]; [| auto].
  f_equal. apply filter_nothing. intros t' Ht'.
  apply String.eqb_neq. intros E'. apply Ht. rewrite E, <- E'.
  now apply in_map.
Qed.

Lemma entries_positional (db : database) (skills : list string) :
  NoDup (map skill (techstacks db)) ->
  flat_map (fun s => match definitions_of db s with
                     | [] => [VDoc []]
                     | ts => map (fun t => entry (Some t)) ts
                     end)
           skills
  = map (fun s => entry (find (fun t => String.eqb (skill t) s)
                              (techstacks db)))
        skills.
Proof.
  intros Hnd. induction skills as [| s ss IH]; [reflexivity |].
  cbn [flat_map]. rewrite map_cons, IH, (definitions_unique db s Hnd).
  now destruct (find _ (techstacks db)).
Qed.

(** X8: when no two definitions have the same skill name, the tech stack of
    a record has one entry for each skill of the portfolio, at the position
    of the skill: the entry of the definition with that name, or the entry
    without fields when there is no such definition. *)
Theorem techStack_by_position (satisfies : value -> document -> bool)
    (db : database) (m : option value) (opts : option options) :
  NoDup (map portfolio_id (portfolios db)) ->
  NoDup (map skill (techstacks db)) ->
  exists out,
    aggregate satisfies db m opts = Some out
    /\ forall r p s ss,
         In r out -> In p (portfolios db) ->
         get "_id" r = Some (VOid (portfolio_id p)) ->
         techStack p = Some (s :: ss) ->
         get "techStack" r
         = Some (VArr (map (fun s =>
                              entry (find (fun t => String.eqb (skill t) s)
                                          (techstacks db)))
                           (s :: ss))).
Proof.
  intros Hnd Hskills.
  destruct (@aggregate_sound satisfies db m opts Hnd) as (out & Hout & Hin & _).
  exists out. split; [assumption |].
  intros r p s ss Hr Hp Hid Hstack.
  destruct (@view_of_row satisfies db m r p Hnd (Hin r Hr) Hp Hid)
    as (label & _ & ->).
  change (get "techStack" (view_document db p label))
    with (Some (VArr (entries db p))).
  rewrite entries_cases, Hstack. cbv beta iota.
  now rewrite (entries_positional db (s :: ss) Hskills).
Qed.

Lemma techStack_by_position_witness :
  exists out r,
    aggregate everything store None None = Some out
    /\ In r out
    /\ get "techStack" r
       = Some (VArr [entry (Some goDefinition); entry None]).
Proof.
  destruct (@techStack_by_position everything store None None
              ltac:(distinct_ids) ltac:(distinct_ids))
    as (out & Hout & Hstack).
  exists out, (view_document store portfolioA (Some "Backend")).
  assert (Hin : In (view_document store portfolioA (Some "Backend")) out).
  { vm_compute in Hout. injection Hout as <-. cbn. auto. }
  split; [exact Hout |]. split; [exact Hin |].
  exact (Hstack _ portfolioA "go" ["rust"] Hin (or_introl eq_refl)
           eq_refl eq_refl).
Defined.

Lemma entries_length (db : database) (p : Portfolio) :
  (1 <= List.length (entries db p))%nat
  /\ (List.length (match techStack p with Some ss => ss | None => [] end)
      <= List.length (entries db p))%nat.
Proof.
  rewrite entries_cases.
  assert (H : forall skills,
             (List.length skills
              <= List.length
                   (flat_map (fun s => match definitions_of db s with
                                       | [] => [VDoc []]
                                       | ts => map (fun t => entry (Some t)) ts
                                       end)
                             skills))%nat).
  { intros skills.
    set (f := fun s => match definitions_of db s with
                       | [] => [VDoc []]
                       | ts => map (fun t => entry (Some t)) ts
                       end).
    induction skills as [| s ss IH]; cbn [flat_map List.length]; [lia |].
    rewrite length_app.
    assert (1 <= List.length (f s))%nat
      by (unfold f; destruct (definitions_of db s);
          cbn [List.length map]; lia).
    lia. }
  destruct (techStack p) as [[| s ss] |]; cbn [List.length]; try lia.
  specialize (H (s :: ss)). cbn [List.length] in H. lia.
Qed.

(** X9: the tech stack of a record is never empty and never shorter than
    the skill sequence of the portfolio: every skill contributes at least
    one entry, also when several definitions share its name. *)
Theorem techStack_length (satisfies : value -> document -> bool)
    (db : database) (m : option value) (opts : option options) :
  NoDup (map portfolio_id (portfolios db)) ->
  exists out,
    aggregate satisfies db m opts = Some out
    /\ forall r p,
         In r out -> In p (portfolios db) ->
         get "_id" r = Some (VOid (portfolio_id p)) ->
         exists es,
           get "techStack" r = Some (VArr es)
           /\ (1 <= List.length es)%nat
           /\ (List.length (match techStack p with
                            | Some ss => ss
                            | None => []
                            end)
               <= List.length es)%nat.
Proof.
  intros Hnd.
  destruct (@aggregate_sound satisfies db m opts Hnd) as (out & Hout & Hin & _).
  exists out. split; [assumption |].
  intros r p Hr Hp Hid.
  destruct (@view_of_row satisfies db m r p Hnd (Hin r Hr) Hp Hid)
    as (label & _ & ->).
  exists (entries db p). split; [reflexivity | apply entries_length].
Qed.

Lemma techStack_length_witness :
  exists out,
    aggregate everything store None None = Some out
    /\ forall r p,
         In r out -> In p (portfolios store) ->
         get "_id" r = Some (VOid (portfolio_id p)) ->
         exists es,
           get "techStack" r = Some (VArr es)
           /\ (1 <= List.length es)%nat
           /\ (List.length (match techStack p with
                            | Some ss => ss
                            | None => []
                            end)
               <= List.length es)%nat.
Proof.
  apply (@techStack_length everything store None None). distinct_ids.
Defined.

(** ** The head of a listing *)

Lemma listing_has_view (satisfies : value -> document -> bool)
    (db : database) (m : option value) (p : Portfolio) :
  In p (portfolios db) ->
  satisfies (default (VDoc []) m) (portfolio_document p) = true ->
  exists label, In (view_document db p label) (listing satisfies db m).
Proof.
  intros Hp Hsat.
  assert (Hl : exists label, In label (labels_of db p)).
  { unfold labels_of.
    destruct (match jobGroup p with
              | Some j => jobgroups_of db j
              | None => []
              end) as [| g gs]; cbn; eauto. }
  destruct Hl as (label & Hl). exists label.
  unfold listing. apply in_flat_map. exists p. split.
  - apply filter_In. auto.
  - unfold views_of. now apply in_map.
Qed.

Lemma first_page_head (k l : Z) (r : document) (ds rest : list document) :
  k <= 0 -> paginate k l ds = r :: rest -> exists rest', ds = r :: rest'.
Proof.
  intros Hk. unfold paginate.
  destruct (Z.ltb_spec 0 k); [lia |].
  destruct (0 <? l); [| eauto].
  destruct ds as [| d ds], (Z.to_nat l); cbn; try discriminate.
  intros [= -> _]. eauto.
Qed.

(** X10: in a listing that skips nothing, the first record leads all the
    portfolios that pass the filter: under [sort = "popular"] no such
    portfolio has more likes, or as many likes and a later creation date;
    under any other sort none has a later creation date. *)
Theorem first_record_leads (satisfies : value -> document -> bool)
    (db : database) (m : option value) (opts : option options) :
  NoDup (map portfolio_id (portfolios db)) ->
  (forall k, requested_skip opts = Some k -> k <= 0) ->
  exists out,
    aggregate satisfies db m opts = Some out
    /\ forall r rest p,
         out = r :: rest ->
         In p (portfolios db) ->
         satisfies (match m with Some q => q | None => VDoc [] end)
                   (portfolio_document p) = true ->
         exists n t,
           likeCount_of r = Some n /\ createdAt_of r = Some t
           /\ if is_popular opts
              then count_likes db (portfolio_id p) < n
                   \/ (count_likes db (portfolio_id p) = n
                       /\ createdAt p <= t)
              else createdAt p <= t.
Proof.
  intros Hnd Hskip. eexists. split; [now apply aggregate_result |].
  intros r rest p Hout Hp Hsat.
  apply first_page_head in Hout as (rest' & Hsorted);
    [| destruct (requested_skip opts) as [k |]; cbn; [now apply Hskip | lia]].
  pose proof (sort_by_ordered (is_popular opts)
                (@listing_dated satisfies db m)) as Hord.
  rewrite <- sortStage_popular, Hsorted in Hord.
  apply StronglySorted_inv in Hord as [_ Hlead].
  destruct (@listing_has_view satisfies db m p Hp Hsat) as (label & Hview).
  apply (Permutation_in _
           (sort_by_perm
              (sortKeys (sortStage (default "latest" (requested_sort opts))))
              (listing satisfies db m))) in Hview.
  rewrite Hsorted in Hview. destruct Hview as [-> | Hview].
  - exists (count_likes db (portfolio_id p)), (createdAt p).
    split; [reflexivity |]. split; [reflexivity |].
    destruct (is_popular opts); lia.
  - rewrite Forall_forall in Hlead.
    destruct (Hlead _ Hview)
      as (n1 & t1 & n2 & t2 & Hn1 & Ht1 & Hn2 & Ht2 & Hle).
    cbn in Hn2, Ht2. injection Hn2 as <-. injection Ht2 as <-.
    exists n1, t1. split; [assumption |]. split; [assumption |].
    destruct (is_popular opts); lia.
Qed.

Lemma first_record_leads_witness :
  exists out,
    aggregate everything store None (withOptions (Some "popular") None None)
    = Some out
    /\ forall r rest,
         out = r :: rest ->
         exists n t,
           likeCount_of r = Some n /\ createdAt_of r = Some t
           /\ (count_likes store (portfolio_id portfolioC) < n
               \/ (count_likes store (portfolio_id portfolioC) = n
                   /\ createdAt portfolioC <= t)).
Proof.
  destruct (@first_record_leads everything store None
              (withOptions (Some "popular") None None)
              ltac:(distinct_ids) ltac:(cbn; discriminate))
    as (out & Hout & Hlead).
  exists out. split; [exact Hout |].
  intros r rest E.
  exact (Hlead r rest portfolioC E
           (or_intror (or_intror (or_introl eq_refl))) eq_refl).
Defined.

(** ** Pages and their metadata *)

Lemma paginate_nonempty (k l : Z) (ds : list document) :
  0 <= k -> 0 < l ->
  (paginate k l ds <> [] <-> k < Z.of_nat (List.length ds)).
Proof.
  intros Hk Hl.
  assert (Hlen : List.length (paginate k l ds)
                 = Nat.min (Z.to_nat l) (List.length ds - Z.to_nat k)).
  { unfold paginate. destruct (Z.ltb_spec 0 l); [| lia].
    destruct (Z.ltb_spec 0 k).
    - now rewrite length_firstn, length_skipn.
    - rewrite length_firstn. replace (Z.to_nat k) with 0%nat by lia.
      now rewrite Nat.sub_0_r. }
  rewrite <- length_zero_iff_nil, Hlen. lia.
Qed.

(** X15: the page numbers of the metadata agree with the slices of the
    pipeline.  With [limit > 0], [skip = (page - 1) * limit] and the
    metadata computed from the number of records of the query without skip
    and limit (all of them integers below [2^53]), page [page >= 1] has a
    record exactly when [page] is at most [totalPages], and [hasNextPage]
    is true exactly when the next page has a record. *)
Theorem pages_agree (satisfies : value -> document -> bool)
    (db : database) (m : option value) (s : option string)
    (page l : Z) :
  NoDup (map portfolio_id (portfolios db)) ->
  Z.of_nat (List.length (listing satisfies db m)) < 2 ^ 53 ->
  1 <= page < 2 ^ 53 -> 0 < l < 2 ^ 53 ->
  exists full out next pages,
    aggregate satisfies db m (withOptions s (Some 0) (Some 0)) = Some full
    /\ aggregate satisfies db m
         (withOptions s (Some ((page - 1) * l)) (Some l))
       = Some out
    /\ aggregate satisfies db m (withOptions s (Some (page * l)) (Some l))
       = Some next
    /\ toZ (Meta.totalPages
              (createPaginationMetadata
                 (ofZ (Z.of_nat (List.length full))) (ofZ page) (ofZ l)))
       = Some pages
    /\ (out <> [] <-> page <= pages)
    /\ (Meta.hasNextPage
          (createPaginationMetadata
             (ofZ (Z.of_nat (List.length full))) (ofZ page) (ofZ l))
        = true
        <-> next <> []).
Proof.
  intros Hnd Hsize Hpage Hl.
  set (full := sort_by (sortKeys (sortStage (default "latest" s)))
                       (listing satisfies db m)).
  assert (Hlen : Z.of_nat (List.length full)
                 = Z.of_nat (List.length (listing satisfies db m))).
  { unfold full. now rewrite <- (Permutation_length (sort_by_perm _ _)). }
  pose proof (@ceiling_bounds (Z.of_nat (List.length full)) l ltac:(lia))
    as Hbounds.
  exists full. do 2 eexists. exists (- (- Z.of_nat (List.length full) / l)).
  split.
  { rewrite (@aggregate_result satisfies db m _ Hnd).
    cbn [withOptions requested_skip requested_limit requested_sort
         skip limit sort default].
    now rewrite (paginate_none _ (k := 0) (l := 0)) by lia. }
  split; [now apply aggregate_result |].
  split; [now apply aggregate_result |].
  cbn [withOptions requested_skip requested_limit requested_sort
       skip limit sort default].
  fold full.
  unfold createPaginationMetadata. cbn [Meta.totalPages Meta.hasNextPage].
  split; [apply toZ_ceil_divide; lia |].
  rewrite lessThan_ceil_divide by lia.
  rewrite !paginate_nonempty by nia. rewrite Z.ltb_lt.
  split; split; intros H; nia.
Qed.

Lemma pages_agree_witness :
  exists full out next pages,
    aggregate everything store None (withOptions None (Some 0) (Some 0))
    = Some full
    /\ aggregate everything store None
         (withOptions None (Some ((2 - 1) * 2)) (Some 2))
       = Some out
    /\ aggregate everything store None
         (withOptions None (Some (2 * 2)) (Some 2))
       = Some next
    /\ toZ (Meta.totalPages
              (createPaginationMetadata
                 (ofZ (Z.of_nat (List.length full))) (ofZ 2) (ofZ 2)))
       = Some pages
    /\ (out <> [] <-> 2 <= pages)
    /\ (Meta.hasNextPage
          (createPaginationMetadata
             (ofZ (Z.of_nat (List.length full))) (ofZ 2) (ofZ 2))
        = true
        <-> next <> []).
Proof.
  apply (@pages_agree everything store None None 2 2);
    [distinct_ids | vm_compute; reflexivity | lia | lia].
Defined.
